(** * GLM checkpoint conversion: a shallow embedding of
    [src/transformers/models/glm/convert_glm_weights_to_hf.py]

    The script renames the parameters of a checkpoint, translates its
    configuration record, concatenates its weight shards and rebuilds its
    tokenizer.  Each Python function is embedded below under its own name;
    Python [str] methods, [int], [sorted], [os.path.join] and the [dict]
    operations the script calls are modelled in the modules [PyStr], [PyDict]
    and [OsPath]. *)

From Stdlib Require Import ZArith Ascii String Floats.
From Stdlib.Strings Require Import Byte.
From stdpp Require Import base option list gmap strings sorting.

Local Open Scope string_scope.
Local Open Scope list_scope.

(** ** Exceptions and results *)

(** The exceptions the script can raise; [KeyError] carries the missing key. *)
Inductive exn :=
  | KeyError (key : string)
  | IndexError
  | ValueError
  | TypeError
  | OverflowError
  | FileNotFoundError (path : string)
  | ExternalError (what : string).

Inductive result (A : Type) :=
  | Ok (a : A)
  | Raise (e : exn).
Arguments Ok {A} a.
Arguments Raise {A} e.

Definition result_bind {A B} (r : result A) (k : A → result B) : result B :=
  match r with
  | Ok a => k a
  | Raise e => Raise e
  end.

(** ** Python strings

    A [str] is modelled as a [string] whose characters are code points below
    256. *)
Module PyStr.

Fixpoint drop (n : nat) (s : string) : string :=
  match n, s with
  | O, _ => s
  | S _, EmptyString => EmptyString
  | S k, String _ s' => drop k s'
  end.

Definition startswith (s p : string) : bool := String.prefix p s.

(** [s.endswith(suffix)] *)
Definition endswith (s suffix : string) : bool :=
  if Nat.leb (String.length suffix) (String.length s)
  then String.eqb (drop (String.length s - String.length suffix) s) suffix
  else false.

(** [s.replace(old, new)] for a non-empty [old]: scan from the left, and
    at every occurrence of [old] emit [new] and resume after the
    occurrence.  [skip] counts the characters of the current occurrence
    still to be passed over. *)
Fixpoint replace_from (skip : nat) (old new s : string) : string :=
  match s with
  | EmptyString => EmptyString
  | String c s' =>
      match skip with
      | S k => replace_from k old new s'
      | O =>
          if String.prefix old s
          then new +:+ replace_from (String.length old - 1) old new s'
          else String c (replace_from 0 old new s')
      end
  end.

(** [s.replace("", new)]: [new] before every character and at the end. *)
Fixpoint replace_empty (new s : string) : string :=
  match s with
  | EmptyString => new
  | String c s' => new +:+ String c (replace_empty new s')
  end.

Definition replace (old new s : string) : string :=
  match old with
  | EmptyString => replace_empty new s
  | String _ _ => replace_from 0 old new s
  end.

(** [s.split(sep, maxsplit)] for a one-character separator. *)
Fixpoint split (sep : ascii) (maxsplit : nat) (s : string) : list string :=
  match s with
  | EmptyString => [EmptyString]
  | String c s' =>
      if Ascii.eqb c sep
      then match maxsplit with
           | O => [s]
           | S m => EmptyString :: split sep m s'
           end
      else match split sep maxsplit s' with
           | hd :: tl => String c hd :: tl
           | [] => [String c EmptyString]
           end
  end.

(** Whitespace as [int] strips it: tab to carriage return, space, NEL and
    the no-break space.  The separators 28..31, which [str.strip] removes,
    are not among them: [int] raises on them. *)
Definition isspace (c : ascii) : bool :=
  let n := nat_of_ascii c in
  (Nat.leb 9 n && Nat.leb n 13) || Nat.eqb n 32
  || Nat.eqb n 133 || Nat.eqb n 160.

Definition isdigit (c : ascii) : bool :=
  let n := nat_of_ascii c in Nat.leb 48 n && Nat.leb n 57.

Definition digit_value (c : ascii) : Z := Z.of_nat (nat_of_ascii c - 48).

Fixpoint lstrip (s : string) : string :=
  match s with
  | EmptyString => EmptyString
  | String c s' => if isspace c then lstrip s' else s
  end.

Fixpoint reverse_onto (acc s : string) : string :=
  match s with
  | EmptyString => acc
  | String c s' => reverse_onto (String c acc) s'
  end.

Definition reverse (s : string) : string := reverse_onto EmptyString s.

Definition strip (s : string) : string :=
  reverse (lstrip (reverse (lstrip s))).

(** Decimal digits with single underscores allowed between digits.
    [after_digit] tells whether the previous character was a digit. *)
Fixpoint digits (acc : Z) (after_digit : bool) (s : string) : option Z :=
  match s with
  | EmptyString => if after_digit then Some acc else None
  | String c s' =>
      if isdigit c then digits (10 * acc + digit_value c) true s'
      else if Ascii.eqb c "_"
           then (if after_digit then digits acc false s' else None)
           else None
  end.

(** [int(s)] in base ten: [None] stands for [ValueError].  The bound an
    interpreter puts on the number of digits (4300 unless configured) is not
    modelled: a longer string is outside the domain of the model. *)
Definition int (s : string) : option Z :=
  match strip s with
  | String "+" r => digits 0 false r
  | String "-" r => Z.opp <$> digits 0 false r
  | t => digits 0 false t
  end.

(** [old in s] *)
Fixpoint contains (old s : string) : bool :=
  match s with
  | EmptyString => String.prefix old s
  | String _ s' => String.prefix old s || contains old s'
  end.

End PyStr.

(** ** [os.path.join] (POSIX), two components *)
Module OsPath.

Definition join (a b : string) : string :=
  if PyStr.startswith b "/" then b
  else if String.eqb a "" || PyStr.endswith a "/" then a +:+ b
  else a +:+ "/" +:+ b.

End OsPath.

(** ** Python dictionaries as insertion-ordered association lists

    Used for the weight collection, where the iteration order of [items()]
    decides which value survives when two names are renamed to the same
    name. *)
Module PyDict.
Section dict.
Context {V : Type}.

Fixpoint get (d : list (string * V)) (k : string) : option V :=
  match d with
  | [] => None
  | (k', v) :: d' => if String.eqb k' k then Some v else get d' k
  end.

(** [d[k] = v]: an existing key keeps its position, a new key goes last. *)
Fixpoint set (d : list (string * V)) (k : string) (v : V)
  : list (string * V) :=
  match d with
  | [] => [(k, v)]
  | (k', v') :: d' =>
      if String.eqb k' k then (k', v) :: d' else (k', v') :: set d' k v
  end.

Definition keys (d : list (string * V)) : list string := d.*1.
Definition values (d : list (string * V)) : list V := d.*2.
End dict.
End PyDict.

(** ** The weight key remapper *)

Definition STATE_DICT_MAPPING : list (string * string) :=
  [ ("transformer.", "model.");
    ("transformer.output_layer.", "lm_head.");
    (".embedding.", ".embed_tokens.");
    (".encoder.layers.", ".layers.");
    ("final_layernorm.", "norm.");
    ("rotary_pos_embed.", "rotary_emb.");
    ("self_attention.", "self_attn.");
    ("query_key_value.", "qkv_proj.");
    ("dense.", "o_proj.");
    ("dense_h_to_4h.", "gate_up_proj.");
    ("dense_4h_to_h.", "down_proj.") ].

(** The inner loop of [convert_state_dict] over an arbitrary rule list:
    every rule is applied to the key left by the rules before it. *)
Definition apply_rules (rules : list (string * string)) (key : string)
  : string :=
  foldl (λ new_key '(old, new), PyStr.replace old new new_key) key rules.

Definition convert_key (key : string) : string :=
  apply_rules STATE_DICT_MAPPING key.

(** The loop of [convert_state_dict], started from an arbitrary [new_dict]. *)
Definition rename_into {V} (new_dict original_state_dict : list (string * V))
  : list (string * V) :=
  foldl (λ new_dict '(key, value), PyDict.set new_dict (convert_key key) value)
        new_dict original_state_dict.

Definition convert_state_dict {V} (original_state_dict : list (string * V))
  : list (string * V) :=
  rename_into [] original_state_dict.

(** ** State and exceptions

    Code that mutates an object it was handed (the configuration [dict], the
    file system) is a function from the state before to an outcome and the
    state after; a raised exception keeps the state reached when it was
    raised. *)
Definition M (S A : Type) : Type := S → result A * S.

Global Instance M_ret {S} : MRet (M S) := λ A a s, (Ok a, s).
Global Instance M_bind {S} : MBind (M S) := λ A B k m s,
  match m s with
  | (Ok a, s') => k a s'
  | (Raise e, s') => (Raise e, s')
  end.

Definition lift {S A} (r : result A) : M S A := λ s, (r, s).

Fixpoint for_each {S A} (l : list A) (body : A → M S unit) : M S unit :=
  match l with
  | [] => mret ()
  | x :: l' => body x ≫= λ _, for_each l' body
  end.

(** ** JSON values, as [json.load] returns them *)
#[local] Set Warnings "-register-all".
Inductive json :=
  | JNull
  | JBool (b : bool)
  | JInt (z : Z)
  | JFloat (f : float)
  | JStr (s : string)
  | JList (l : list json)
  | JDict (d : list (string * json)).

(** Python truthiness, as [not x] tests it. *)
Definition truthy (x : json) : bool :=
  match x with
  | JNull => false
  | JBool b => b
  | JInt z => negb (Z.eqb z 0)
  | JFloat f => negb (PrimFloat.eqb f 0)
  | JStr s => negb (String.eqb s "")
  | JList l => match l with [] => false | _ => true end
  | JDict d => match d with [] => false | _ => true end
  end.

(** [float(z)] for a Python integer: the nearest double, ties to even;
    [OverflowError] when it is out of range. *)
Definition float_of_int (z : Z) : result float :=
  match binary_normalize 53 1024 z 0 false with
  | S754_infinity _ => Raise OverflowError
  | x => Ok (SF2Prim x)
  end.

(** [c * x] for a float [c]: a float, an integer or a boolean operand is
    multiplied as a double, anything else is a [TypeError]. *)
Definition float_mul (c : float) (x : json) : result float :=
  match x with
  | JFloat f => Ok (c * f)%float
  | JInt z => result_bind (float_of_int z) (λ f, Ok (c * f)%float)
  | JBool b => Ok (c * (if b then 1 else 0))%float
  | _ => Raise TypeError
  end.

(** ** The configuration translator *)

(** The keyword arguments [convert_config] passes to [GlmConfig]. *)
Record GlmConfig := {
  vocab_size : json;
  hidden_size : json;
  intermediate_size : json;
  num_hidden_layers : json;
  num_attention_heads : json;
  num_key_value_heads : json;
  resid_pdrop : json;
  attention_dropout : json;
  max_position_embeddings : json;
  initializer_range : json;
  rms_norm_eps : json;
  rope_theta : float;
  use_rms_norm : json;
  apply_residual_connection_post_layernorm : json;
  post_layer_norm : json;
  use_cache : json;
  head_dim : json;
  attention_bias : json;
  linear_bias : json
}.

(** [d.pop(key)] *)
Definition pop (key : string) : M (gmap string json) json := λ d,
  match d !! key with
  | Some v => (Ok v, delete key d)
  | None => (Raise (KeyError key), d)
  end.

(** [convert_config(original_config)]: the state is [original_config], whose
    entries are popped in the order Python evaluates the keyword arguments;
    what is left at the end is the set of unused keys the function prints. *)
Definition convert_config : M (gmap string json) GlmConfig :=
  num_attention_heads ← pop "num_attention_heads";
  vocab_size ← pop "padded_vocab_size";
  hidden_size ← pop "hidden_size";
  intermediate_size ← pop "ffn_hidden_size";
  num_hidden_layers ← pop "num_hidden_layer";
  multi_query_attention ← pop "multi_query_attention";
  num_key_value_heads ←
    (if negb (truthy multi_query_attention)
     then mret num_attention_heads
     else pop "multi_query_group_num");
  resid_pdrop ← pop "hidden_dropout";
  attention_dropout ← pop "attention_dropout";
  max_position_embeddings ← pop "max_position_embeddings";
  initializer_range ← pop "initializer_range";
  rms_norm_eps ← pop "layernorm_epsilon";
  rope_ratio ← pop "rope_ratio";
  rope_theta ← lift (float_mul 10000 rope_ratio);
  use_rms_norm ← pop "rmsnorm";
  apply_residual_connection_post_layernorm ←
    pop "apply_residual_connection_post_layernorm";
  post_layer_norm ← pop "post_layer_norm";
  use_cache ← pop "use_cache";
  head_dim ← pop "kv_channels";
  attention_bias ← pop "add_qkv_bias";
  linear_bias ← pop "add_bias_linear";
  mret {|
    vocab_size := vocab_size;
    hidden_size := hidden_size;
    intermediate_size := intermediate_size;
    num_hidden_layers := num_hidden_layers;
    num_attention_heads := num_attention_heads;
    num_key_value_heads := num_key_value_heads;
    resid_pdrop := resid_pdrop;
    attention_dropout := attention_dropout;
    max_position_embeddings := max_position_embeddings;
    initializer_range := initializer_range;
    rms_norm_eps := rms_norm_eps;
    rope_theta := rope_theta;
    use_rms_norm := use_rms_norm;
    apply_residual_connection_post_layernorm :=
      apply_residual_connection_post_layernorm;
    post_layer_norm := post_layer_norm;
    use_cache := use_cache;
    head_dim := head_dim;
    attention_bias := attention_bias;
    linear_bias := linear_bias
  |}.

(** The source fields [convert_config] pops on every run, in the order it
    pops them. *)
Definition unconditional_fields : list string :=
  [ "num_attention_heads"; "padded_vocab_size"; "hidden_size";
    "ffn_hidden_size"; "num_hidden_layer"; "multi_query_attention";
    "hidden_dropout"; "attention_dropout"; "max_position_embeddings";
    "initializer_range"; "layernorm_epsilon"; "rope_ratio"; "rmsnorm";
    "apply_residual_connection_post_layernorm"; "post_layer_norm";
    "use_cache"; "kv_channels"; "add_qkv_bias"; "add_bias_linear" ].

(** The fields a run reads: the group count is read only when the
    multi-query flag is truthy. *)
Definition required_fields (multi_query : bool) : list string :=
  if multi_query
  then "multi_query_group_num" :: unconditional_fields
  else unconditional_fields.


(** ** The file system

    [listing] gives, for a directory, the names [os.listdir] enumerates, in
    the order it enumerates them; [files] gives the bytes of a file by the
    path it is opened with.  No function of the script lists a directory
    after writing into it, so a write updates [files] only. *)
Record fs := {
  listing : gmap string (list string);
  files : gmap string (list byte)
}.

Definition listdir (dir : string) : M fs (list string) := λ w,
  match listing w !! dir with
  | Some names => (Ok names, w)
  | None => (Raise (FileNotFoundError dir), w)
  end.

(** [open(path, "rb").read()] *)
Definition read_bytes (path : string) : M fs (list byte) := λ w,
  match files w !! path with
  | Some data => (Ok data, w)
  | None => (Raise (FileNotFoundError path), w)
  end.

(** [open(path, "wb")]: the file is created, or truncated. *)
Definition open_wb (path : string) : M fs unit := λ w,
  (Ok (), {| listing := listing w; files := <[path := []]> (files w) |}).

(** [f.write(data)] on a file opened at [path].  The bytes reach the file at
    once; Python holds them in a buffer until it is full or the file is
    closed.  The two differ only for a file that is read while it is open
    for writing, which is outside the domain of the model. *)
Definition write_bytes (path : string) (data : list byte) : M fs unit := λ w,
  (Ok (),
   {| listing := listing w;
      files := <[path := default [] (files w !! path) ++ data]> (files w) |}).

(** ** The shard merger *)

Fixpoint result_mapM {A B} (f : A → result B) (l : list A)
  : result (list B) :=
  match l with
  | [] => Ok []
  | x :: l' =>
      result_bind (f x) (λ y,
      result_bind (result_mapM f l') (λ ys, Ok (y :: ys)))
  end.

(** Stable insertion into a list sorted by key: the new element goes before
    the first element whose key is not smaller. *)
Fixpoint insert_by_key {A} (kx : Z * A) (l : list (Z * A)) : list (Z * A) :=
  match l with
  | [] => [kx]
  | ky :: l' =>
      if Z.leb kx.1 ky.1 then kx :: ky :: l' else ky :: insert_by_key kx l'
  end.

(** [sorted(l, key=key)]: every key is computed first (an exception of [key]
    is raised before anything is ordered), and the sort is stable. *)
Definition sorted {A} (key : A → result Z) (l : list A) : result (list A) :=
  result_bind (result_mapM (λ x, result_bind (key x) (λ k, Ok (k, x))) l)
    (λ keyed, Ok (foldr insert_by_key [] keyed).*2).

(** The sort key of [merge_safetensors]: [int(x.split('-', 2)[1])]. *)
Definition shard_key (x : string) : result Z :=
  match PyStr.split "-" 2 x !! 1%nat with
  | None => Raise IndexError
  | Some token =>
      match PyStr.int token with
      | None => Raise ValueError
      | Some n => Ok n
      end
  end.

Definition merge_safetensors (input_dir : string) : M fs unit :=
  names ← listdir input_dir;
  let all_files :=
    OsPath.join input_dir
      <$> filter (λ x, PyStr.endswith x ".safetensors" = true) names in
  all_files ← lift (sorted shard_key all_files);
  let output_path := OsPath.join input_dir "consolidated.safetensors" in
  open_wb output_path;;
  for_each all_files (λ filepath,
    data ← read_bytes filepath;
    write_bytes output_path data).

(** ** The tokenizer rebuilder *)

Inductive pre_tokenizer :=
  | PreSplit (pattern behavior : string) (invert : bool)
  | PreByteLevel (add_prefix_space use_regex : bool)
  | PreSequence (steps : list pre_tokenizer).

Inductive decoder :=
  | DecByteLevel.

Inductive processor :=
  | ProcByteLevel (trim_offsets : bool)
  | TemplateProcessing (single pair : string)
                       (special_tokens : list (string * Z))
  | ProcSequence (steps : list processor).

(** The fields of a [tokenizers.Tokenizer] that [converted] assigns; [core]
    is whatever else the object built by the base class holds. *)
Record Tokenizer (Core : Type) := {
  core : Core;
  pre_tokenizer_of : option pre_tokenizer;
  decoder_of : option decoder;
  special_tokens_of : list string;
  post_processor : option processor
}.
Arguments core {Core} _.
Arguments pre_tokenizer_of {Core} _.
Arguments decoder_of {Core} _.
Arguments special_tokens_of {Core} _.
Arguments post_processor {Core} _.

(** The attributes of the converter object that [converted] reads;
    [tokenizer] is the method inherited from [TikTokenConverter]. *)
Record GlmConverter (Core : Type) := {
  tokenizer : Tokenizer Core;
  pattern : string;
  add_prefix_space : bool;
  additional_special_tokens : list string
}.
Arguments tokenizer {Core} _.
Arguments pattern {Core} _.
Arguments add_prefix_space {Core} _.
Arguments additional_special_tokens {Core} _.

Definition converted {Core} (self : GlmConverter Core) : Tokenizer Core :=
  let t := tokenizer self in
  {| core := core t;
     pre_tokenizer_of :=
       Some (PreSequence
               [ PreSplit (pattern self) "isolated" false;
                 PreByteLevel (add_prefix_space self) false ]);
     decoder_of := Some DecByteLevel;
     special_tokens_of :=
       special_tokens_of t ++ additional_special_tokens self;
     post_processor :=
       Some (ProcSequence
               [ ProcByteLevel false;
                 TemplateProcessing
                   "[gMASK]:0 <sop>:0 $A:0"
                   "[gMASK]:0 <sop>:0 $A:0 $B:1"
                   [("[gMASK]", 151331%Z); ("<sop>", 151333%Z)] ]) |}.

(** *** What a post-processor does to token and type identifiers *)

Inductive piece :=
  | SpecialToken (name : string) (type_id : Z)
  | SequenceA (type_id : Z)
  | SequenceB (type_id : Z).

(** Modelled from the spec: the template syntax of the [tokenizers]
    library, which this repository calls but does not contain.  A template
    is a space-separated list of pieces [name:t]; [$A] and [$B] name the
    first and the second input, any other name is a special token; [t] is the
    type identifier the tokens of the piece carry. *)
Definition parse_piece (s : string) : option piece :=
  match PyStr.split ":" (String.length s) s with
  | [name; t] =>
      type_id ← PyStr.int t;
      if String.eqb name "$A" then Some (SequenceA type_id)
      else if String.eqb name "$B" then Some (SequenceB type_id)
      else if PyStr.startswith name "$" then None
      else Some (SpecialToken name type_id)
  | _ => None
  end.

Definition parse_template (s : string) : option (list piece) :=
  mapM parse_piece (PyStr.split " " (String.length s) s).

(** A token identifier paired with its type identifier. *)
Definition encoding : Type := list (Z * Z).

(** Modelled from the spec: a template is filled in piece by piece; a
    special token contributes its bound identifier, an input contributes its
    tokens, each under the type identifier of the piece. *)
Definition fill_piece (special_tokens : list (string * Z))
    (a b : list Z) (p : piece) : option encoding :=
  match p with
  | SpecialToken name t =>
      id ← PyDict.get special_tokens name; Some [(id, t)]
  | SequenceA t => Some ((λ id, (id, t)) <$> a)
  | SequenceB t => Some ((λ id, (id, t)) <$> b)
  end.

Definition fill_template (special_tokens : list (string * Z))
    (a b : list Z) (template : list piece) : option encoding :=
  mjoin <$> mapM (fill_piece special_tokens a b) template.

(** Modelled from the spec: the effect of a post-processor on the
    identifiers of a single input ([b = None]) or of a pair.  Byte-level
    post-processing only adjusts offsets, a template merges its inputs into
    one encoding, a sequence runs its steps in order. *)
Fixpoint process (p : processor) (a : encoding) (b : option encoding)
  : option (encoding * option encoding) :=
  match p with
  | ProcByteLevel _ => Some (a, b)
  | TemplateProcessing single_tpl pair_tpl special_tokens =>
      template ←
        parse_template
          (match b with Some _ => pair_tpl | None => single_tpl end);
      merged ← fill_template special_tokens a.*1 (default [] b).*1 template;
      Some (merged, None)
  | ProcSequence steps =>
      (fix run (steps : list processor) a b :=
         match steps with
         | [] => Some (a, b)
         | step :: rest =>
             match process step a b with
             | Some (a', b') => run rest a' b'
             | None => None
             end
         end) steps a b
  end.

(** [tokenizer.encode(a)] and [tokenizer.encode(a, b)] as far as the
    post-processor decides them: the inputs arrive with type identifier 0. *)
Definition post_process {Core} (t : Tokenizer Core)
    (a : list Z) (b : option (list Z)) : option encoding :=
  p ← post_processor t;
  fst <$> process p ((λ id, (id, 0%Z)) <$> a)
                    (fmap (M := list) (λ id, (id, 0%Z)) <$> b).

(** ** The pipeline *)

(** The metadata copied from the reference tokenizer. *)
Record TokenizerMetadata := {
  bos_token : option string;
  eos_token : option string;
  pad_token : option string;
  clean_up_tokenization_spaces : bool;
  reference_special_tokens : list string;
  padding_side : string
}.

Record PreTrainedTokenizerFast (Core : Type) := {
  tokenizer_object : Tokenizer Core;
  metadata : TokenizerMetadata
}.
Arguments tokenizer_object {Core} _.
Arguments metadata {Core} _.

Section pipeline.
(** Tensors, the target model and the vocabulary model are opaque. *)
Context {Tensor Model Core : Type}.

(** The collaborators the script imports: the JSON reader, the safetensors
    reader, the target model class, the converter's constructor, the
    reference tokenizer and the three [save_pretrained] methods. *)
Variable json_load : list byte → result (gmap string json).
Variable safe_load_file : string → M fs (list (string * Tensor)).
Variable from_config : GlmConfig → Model.
Variable load_state_dict : Model → list (string * Tensor) → result Model.
Variable new_converter : string → list string → M fs (GlmConverter Core).
Variable from_pretrained : string → M fs TokenizerMetadata.
Variable save_config : GlmConfig → string → M fs unit.
Variable save_model : Model → string → M fs unit.
Variable save_tokenizer : PreTrainedTokenizerFast Core → string → M fs unit.

Definition convert_glm_tokenizer (input_dir : string)
  : M fs (PreTrainedTokenizerFast Core) :=
  converter ← new_converter (OsPath.join input_dir "tokenizer.model") [];
  let fast_tok := converted converter in
  reference ← from_pretrained "THUDM/glm-4-9b";
  mret {| tokenizer_object := fast_tok; metadata := reference |}.

(** [convert_config] runs on the dictionary just read, which nothing else
    refers to: only its outcome reaches the pipeline. *)
Definition convert_glm_model (input_dir output_dir : string) : M fs unit :=
  text ← read_bytes (OsPath.join input_dir "config.json");
  original_config ← lift (json_load text);
  config ← lift (convert_config original_config).1;
  save_config config output_dir;;
  merge_safetensors input_dir;;
  original_state_dict ←
    safe_load_file (OsPath.join input_dir "consolidated.safetensors");
  let new_dict := convert_state_dict original_state_dict in
  let model := from_config config in
  model ← lift (load_state_dict model new_dict);
  save_model model output_dir;;
  tokenizer ← convert_glm_tokenizer input_dir;
  save_tokenizer tokenizer output_dir.
End pipeline.

(** * Predicates the theorems are stated with *)

(** ** Where a pattern can occur *)

(** [diverges old q]: [old] and [q] differ at a position both have, so that
    [old] starts no string that starts with [q]. *)
Fixpoint diverges (old q : string) : bool :=
  match old, q with
  | String a old', String b q' =>
      if Ascii.eqb a b then diverges old' q' else true
  | _, _ => false
  end.

(** [clear_of old p]: no occurrence of [old] can begin inside a leading [p],
    whatever follows [p]. *)
Fixpoint clear_of (old p : string) : bool :=
  match p with
  | EmptyString => true
  | String _ p' => diverges old p && clear_of old p'
  end.

(** [tails_diverge old new]: no tail of [old] is continued by [new]. *)
Definition tails_diverge (old new : string) : bool :=
  forallb (λ j, diverges (PyStr.drop j old) new) (seq 0 (String.length old)).

(** A rule keeps the leading [model.output_layer.] of a key. *)
Definition keeps_target (rule : string * string) : Prop :=
  ∀ t, ∃ t', PyStr.replace rule.1 rule.2 ("model.output_layer." +:+ t)
             = "model.output_layer." +:+ t'.

(** The ordering discipline of a rule list: no pattern is a proper prefix
    of the pattern of a later rule. *)
Fixpoint ordering_discipline (rules : list (string * string)) : bool :=
  match rules with
  | [] => true
  | (old, _) :: rest =>
      forallb (λ later, negb (String.prefix old later.1
                               && negb (String.eqb old later.1))) rest
      && ordering_discipline rest
  end.

(** The rule list with its first two rules exchanged. *)
Definition reordered_mapping : list (string * string) :=
  match STATE_DICT_MAPPING with
  | first :: second :: rest => second :: first :: rest
  | rules => rules
  end.

(** ** Renaming without touching values *)

(** Every entry is found again under its new name with its own value, and
    no value is made up. *)
Definition names_only {V} (d : list (string * V)) : Prop :=
  (∀ k v, (k, v) ∈ d →
     PyDict.get (convert_state_dict d) (convert_key k) = Some v)
  ∧ (∀ v, v ∈ PyDict.values (convert_state_dict d) →
       v ∈ PyDict.values d).

(** ** The translated configuration *)

(** [scaled x theta]: [theta] is the double of [10000. * x]: the product
    with a float, with 1.0 or 0.0 for [True] or [False], and with the double
    nearest to an integer. *)
Definition scaled (x : json) (theta : float) : Prop :=
  match x with
  | JFloat f => theta = (10000 * f)%float
  | JBool b => theta = (10000 * (if b then 1 else 0))%float
  | JInt z =>
      theta = (10000 * SF2Prim (binary_normalize 53 1024 z 0 false))%float
  | _ => False
  end.

(** [translates cfg target]: every field of [target] is the source field
    [convert_config] reads it from; the key-value head count is the group
    count under a truthy flag, [true] among them, and the head count under
    a falsy one, [false] among them; the rotary base is 10000 times the
    rope ratio. *)
Definition translates (cfg : gmap string json) (target : GlmConfig) : Prop :=
  cfg !! "padded_vocab_size" = Some (vocab_size target)
  ∧ cfg !! "hidden_size" = Some (hidden_size target)
  ∧ cfg !! "ffn_hidden_size" = Some (intermediate_size target)
  ∧ cfg !! "num_hidden_layer" = Some (num_hidden_layers target)
  ∧ cfg !! "num_attention_heads" = Some (num_attention_heads target)
  ∧ (∃ flag, cfg !! "multi_query_attention" = Some flag
       ∧ cfg !! (if truthy flag then "multi_query_group_num"
                 else "num_attention_heads")
         = Some (num_key_value_heads target)
       ∧ (flag = JBool true →
          cfg !! "multi_query_group_num" = Some (num_key_value_heads target))
       ∧ (flag = JBool false →
          cfg !! "num_attention_heads" = Some (num_key_value_heads target)))
  ∧ cfg !! "hidden_dropout" = Some (resid_pdrop target)
  ∧ cfg !! "attention_dropout" = Some (attention_dropout target)
  ∧ cfg !! "max_position_embeddings" = Some (max_position_embeddings target)
  ∧ cfg !! "initializer_range" = Some (initializer_range target)
  ∧ cfg !! "layernorm_epsilon" = Some (rms_norm_eps target)
  ∧ (∃ ratio, cfg !! "rope_ratio" = Some ratio
       ∧ scaled ratio (rope_theta target))
  ∧ cfg !! "rmsnorm" = Some (use_rms_norm target)
  ∧ cfg !! "apply_residual_connection_post_layernorm"
    = Some (apply_residual_connection_post_layernorm target)
  ∧ cfg !! "post_layer_norm" = Some (post_layer_norm target)
  ∧ cfg !! "use_cache" = Some (use_cache target)
  ∧ cfg !! "kv_channels" = Some (head_dim target)
  ∧ cfg !! "add_qkv_bias" = Some (attention_bias target)
  ∧ cfg !! "add_bias_linear" = Some (linear_bias target).

(** The fields a run on [cfg] reads. *)
Definition fields_read (cfg : gmap string json) : list string :=
  required_fields (from_option truthy false (cfg !! "multi_query_attention")).

Local Open Scope float_scope.

(** A source configuration with every field, and one field the translator
    does not know. *)
Definition sample_config : gmap string json :=
  list_to_map
    [ ("num_attention_heads", JInt 32); ("padded_vocab_size", JInt 151552);
      ("hidden_size", JInt 4096); ("ffn_hidden_size", JInt 13696);
      ("num_hidden_layer", JInt 40); ("multi_query_attention", JBool true);
      ("multi_query_group_num", JInt 2); ("hidden_dropout", JFloat 0);
      ("attention_dropout", JFloat 0);
      ("max_position_embeddings", JInt 131072);
      ("initializer_range", JFloat 0.015625);
      ("layernorm_epsilon", JFloat 0.0000152587890625);
      ("rope_ratio", JFloat 1.5); ("rmsnorm", JBool true);
      ("apply_residual_connection_post_layernorm", JBool false);
      ("post_layer_norm", JBool true); ("use_cache", JBool true);
      ("kv_channels", JInt 128); ("add_qkv_bias", JBool true);
      ("add_bias_linear", JBool false); ("model_type", JStr "chatglm") ].

Local Close Scope float_scope.


(** ** Sample checkpoints on disk *)

Definition shard_1 : string := "model-00001-of-00002.safetensors".
Definition shard_2 : string := "model-00002-of-00002.safetensors".

(** Two shards in a directory named as on the Hub, enumerated last shard
    first. *)
Definition hub_checkout : fs :=
  {| listing := {[ "glm-4-9b" := [shard_2; shard_1; "config.json"] ]};
     files := list_to_map
       [ ("glm-4-9b/" +:+ shard_1, [x01; x01]);
         ("glm-4-9b/" +:+ shard_2, [x02; x02]) ] |}.

(** The same shards, enumerated the same way, in a directory whose path has
    no hyphen. *)
Definition plain_checkout : fs :=
  {| listing := {[ "ckpt" := [shard_2; shard_1; "config.json"] ]};
     files := list_to_map
       [ ("ckpt/" +:+ shard_1, [x01; x01]);
         ("ckpt/" +:+ shard_2, [x02; x02]) ] |}.

(** A file with the shard suffix and no ordinal, alone in a directory named
    as on the Hub. *)
Definition stray_checkout : fs :=
  {| listing := {[ "glm-4-9b" := ["notes.safetensors"] ]};
     files := {[ "glm-4-9b/notes.safetensors" := [x07] ]} |}.

(** A well-named shard in a directory whose name has a hyphen but no
    number. *)
Definition hyphen_checkout : fs :=
  {| listing := {[ "my-model" := [shard_1] ]};
     files := {[ "my-model/" +:+ shard_1 := [x01] ]} |}.

(** A checkpoint whose [config.json] lacks every field; its bytes are the
    two characters of an empty JSON object. *)
Definition empty_config_checkout : fs :=
  {| listing := {[ "ckpt" := ["config.json"] ]};
     files := {[ "ckpt/config.json" := [x7b; x7d] ]} |}.

(** ** The shard merger's inputs and output *)

(** The paths [merge_safetensors] sorts: the listed names with the shard
    suffix, joined to the directory. *)
Definition shard_paths (dir : string) (names : list string) : list string :=
  OsPath.join dir
    <$> filter (λ x, PyStr.endswith x ".safetensors" = true) names.

(** The bytes of the files at [paths], one after the other. *)
Definition contents (w : fs) (paths : list string) : list byte :=
  mjoin ((λ path, default [] (files w !! path)) <$> paths).

(** Order of keyed elements by their key. *)
Definition by_key {A} : relation (Z * A) := λ a b, (a.1 ≤ b.1)%Z.

(** ** The special tokens of the template *)

Definition glm_special_tokens : list (string * Z) :=
  [("[gMASK]", 151331%Z); ("<sop>", 151333%Z)].

(** ** What the remaining theorems are stated with *)

(** The ordinal [merge_safetensors] sorts a path by, 0 when the path has
    none. *)
Definition shard_ordinal (path : string) : Z :=
  match shard_key path with
  | Ok n => n
  | Raise _ => 0%Z
  end.

(** An entry of the weight collection under its new name. *)
Definition rename_entry {V} (entry : string * V) : string * V :=
  (convert_key entry.1, entry.2).

(** The fields [convert_config] pops, in the order it pops them. *)
Definition pop_order (multi_query : bool) : list string :=
  [ "num_attention_heads"; "padded_vocab_size"; "hidden_size";
    "ffn_hidden_size"; "num_hidden_layer"; "multi_query_attention" ]
  ++ (if multi_query then ["multi_query_group_num"] else [])
  ++ [ "hidden_dropout"; "attention_dropout"; "max_position_embeddings";
       "initializer_range"; "layernorm_epsilon"; "rope_ratio"; "rmsnorm";
       "apply_residual_connection_post_layernorm"; "post_layer_norm";
       "use_cache"; "kv_channels"; "add_qkv_bias"; "add_bias_linear" ].

(** The shards of [plain_checkout], enumerated first shard first. *)
Definition plain_checkout_in_order : fs :=
  {| listing := {[ "ckpt" := ["config.json"; shard_1; shard_2] ]};
     files := files plain_checkout |}.

(** A directory whose path has no hyphen, after a first run: the merged
    file is listed beside the shards. *)
Definition merged_checkout : fs :=
  {| listing := {[ "ckpt" := [shard_1; "consolidated.safetensors"; shard_2] ]};
     files := <["ckpt/consolidated.safetensors" := [x01; x01; x02; x02]]>
                (files plain_checkout) |}.

(** A directory whose path has no hyphen, holding a file with the shard
    suffix and no ordinal, and a configuration file. *)
Definition stray_plain_checkout : fs :=
  {| listing := {[ "ckpt" := ["config.json"; "notes.safetensors"] ]};
     files := {[ "ckpt/config.json" := [x7b; x7d];
                 "ckpt/notes.safetensors" := [x07] ]} |}.


(** A string of decimal digits, as the index of a layer is written. *)
Fixpoint all_digits (s : string) : bool :=
  match s with
  | EmptyString => true
  | String c s' => PyStr.isdigit c && all_digits s'
  end.

(** [refuses x e]: [10000. * x] raises [e]: [OverflowError] for an integer
    too large for a double, which is at least [2 ^ 1023] in magnitude, and
    [TypeError] for a value that is not a number. *)
Definition refuses (x : json) (e : exn) : Prop :=
  match x with
  | JFloat _ | JBool _ => False
  | JInt z => e = OverflowError ∧ (2 ^ 1023 ≤ Z.abs z)%Z
  | _ => e = TypeError
  end.

(** The sample configuration with a string as rope ratio. *)
Definition quoted_ratio_config : gmap string json :=
  <["rope_ratio" := JStr "1.5"]> sample_config.

(** * Theorems *)

(** ** The rule list on concrete keys *)

(** C1: the key
    [transformer.encoder.layers.3.self_attention.query_key_value.weight] is
    renamed to [model.layers.3.self_attn.qkv_proj.weight], by the rule loop
    and by [convert_state_dict] on a collection that holds it. *)
Theorem convert_layer3_qkv_weight :
  convert_key
    "transformer.encoder.layers.3.self_attention.query_key_value.weight"
  = "model.layers.3.self_attn.qkv_proj.weight"
  ∧ ∀ (V : Type) (v : V),
      convert_state_dict
        [("transformer.encoder.layers.3.self_attention.query_key_value.weight",
          v)]
      = [("model.layers.3.self_attn.qkv_proj.weight", v)].
Proof.
  split; [vm_compute; reflexivity | intros V v; vm_compute; reflexivity].
Qed.

(** C2: the rule list breaks the ordering discipline.  Its first pattern,
    [transformer.], is a proper prefix of its second,
    [transformer.output_layer.], so the second rule never sees its pattern:
    [transformer.output_layer.weight] becomes [model.output_layer.weight].
    With the two rules exchanged the discipline holds and the key becomes
    [lm_head.weight]. *)
Theorem rule_order_shadows_output_layer :
  ordering_discipline STATE_DICT_MAPPING = false
  ∧ STATE_DICT_MAPPING !! 0%nat = Some ("transformer.", "model.")
  ∧ STATE_DICT_MAPPING !! 1%nat
    = Some ("transformer.output_layer.", "lm_head.")
  ∧ String.prefix "transformer." "transformer.output_layer." = true
  ∧ convert_key "transformer.output_layer.weight"
    = "model.output_layer.weight"
  ∧ ordering_discipline reordered_mapping = true
  ∧ apply_rules reordered_mapping "transformer.output_layer.weight"
    = "lm_head.weight".
Proof. repeat split; vm_compute; reflexivity. Qed.

(** ** Strings *)

Section string_lemmas.
Import PyStr.

Lemma append_cons a s t : String a s +:+ t = String a (s +:+ t).
Proof. reflexivity. Qed.

Lemma append_nil t : "" +:+ t = t.
Proof. reflexivity. Qed.

Lemma prefix_cons a b s t :
  String.prefix (String a s) (String b t)
  = if Ascii.eqb a b then String.prefix s t else false.
Proof.
  simpl. destruct (ascii_dec a b) as [->|Hne].
  - by rewrite Ascii.eqb_refl.
  - by apply Ascii.eqb_neq in Hne as ->.
Qed.

Lemma prefix_app old t : String.prefix old (old +:+ t) = true.
Proof.
  induction old as [|a old IH]; [by destruct t|].
  by rewrite append_cons, prefix_cons, Ascii.eqb_refl.
Qed.

Lemma drop_app old t : drop (String.length old) (old +:+ t) = t.
Proof. induction old; [by destruct t | done]. Qed.

Lemma replace_from_skip k old new s :
  replace_from k old new s = replace_from 0 old new (drop k s).
Proof.
  revert s. induction k as [|k IH]; intros s; [by destruct s|].
  destruct s as [|c s]; [done|]. apply IH.
Qed.

Lemma replace_from_miss old new c s :
  String.prefix old (String c s) = false →
  replace_from 0 old new (String c s) = String c (replace_from 0 old new s).
Proof. intros H. cbn [replace_from]. by rewrite H. Qed.

Lemma replace_from_hit old new c s :
  String.prefix old (String c s) = true →
  replace_from 0 old new (String c s)
  = new +:+ replace_from 0 old new (drop (String.length old - 1) s).
Proof.
  intros H. cbn [replace_from]. rewrite H. by rewrite replace_from_skip.
Qed.

Lemma replace_from_app_old a old new t :
  replace_from 0 (String a old) new (String a old +:+ t)
  = new +:+ replace_from 0 (String a old) new t.
Proof.
  rewrite append_cons, replace_from_hit.
  - replace (String.length (String a old) - 1) with (String.length old)
      by (cbn [String.length]; lia).
    by rewrite drop_app.
  - rewrite <- append_cons. apply prefix_app.
Qed.

Lemma diverges_no_prefix old q t :
  diverges old q = true → String.prefix old (q +:+ t) = false.
Proof.
  revert q. induction old as [|a old IH]; intros [|b q] H; try done.
  rewrite append_cons, prefix_cons. simpl in H.
  destruct (Ascii.eqb a b); [by apply IH | done].
Qed.

Lemma replace_from_clear old new p t :
  clear_of old p = true →
  replace_from 0 old new (p +:+ t) = p +:+ replace_from 0 old new t.
Proof.
  induction p as [|c p IH]; intros H; [done|].
  cbn [clear_of] in H. apply andb_prop in H as [Hd Hc].
  rewrite append_cons, replace_from_miss.
  - by rewrite IH.
  - rewrite <- append_cons. by apply diverges_no_prefix.
Qed.

Lemma replace_from_same_head c old new s :
  ∃ t, replace_from 0 (String c old) (String c new) (String c s) = String c t.
Proof.
  cbn [replace_from]. destruct (String.prefix _ _); eauto.
Qed.

Lemma contains_false_replace old new s :
  contains old s = false → replace_from 0 old new s = s.
Proof.
  induction s as [|c s IH]; [done|].
  cbn [contains]. intros [H1 H2]%orb_false_elim.
  rewrite replace_from_miss by done. by rewrite IH.
Qed.

Lemma prefix_nil s : String.prefix "" s = true.
Proof. by destruct s. Qed.

Lemma prefix_trans a b s :
  String.prefix a b = true → String.prefix b s = true →
  String.prefix a s = true.
Proof.
  revert b s. induction a as [|x a IH]; intros b s;
    [intros; apply prefix_nil|].
  destruct b as [|y b]; [by cbn|]. destruct s as [|z s]; [by cbn|].
  rewrite !prefix_cons.
  destruct (Ascii.eqb x y) eqn:Exy; [|done].
  destruct (Ascii.eqb y z) eqn:Eyz; [|done].
  apply Ascii.eqb_eq in Exy as ->. rewrite Eyz. apply IH.
Qed.

Lemma contains_longer a b s :
  String.prefix a b = true → contains a s = false → contains b s = false.
Proof.
  intros Hab. induction s as [|c s IH]; cbn [contains].
  - intros H. destruct (String.prefix b "") eqn:E; [|done].
    pose proof (prefix_trans a b _ Hab E). congruence.
  - intros [H1 H2]%orb_false_elim. rewrite IH by done.
    destruct (String.prefix b (String c s)) eqn:E; [|done].
    pose proof (prefix_trans a b _ Hab E). congruence.
Qed.

Lemma drop_step j old :
  j < String.length old →
  ∃ y, drop j old = String y (drop (S j) old).
Proof.
  revert j. induction old as [|a old IH]; intros j Hj; [simpl in Hj; lia|].
  destruct j as [|j]; [by eexists|].
  cbn [String.length] in Hj. destruct (IH j) as [y Hy]; [lia|].
  exists y. exact Hy.
Qed.

Lemma drop_all old : drop (String.length old) old = "".
Proof. by induction old. Qed.

Lemma tails_diverge_at old new j :
  tails_diverge old new = true → j < String.length old →
  diverges (drop j old) new = true.
Proof.
  unfold tails_diverge. rewrite forallb_forall. intros H Hj.
  apply H, in_seq. lia.
Qed.

Section no_new_occurrence.
Variables old new : string.
Hypothesis old_nonempty : 0 < String.length old.
Hypothesis new_clear : clear_of old new = true.
Hypothesis old_tails : tails_diverge old new = true.

(** A suffix of [old] that does not start the key does not start the
    replaced key either. *)
Lemma replace_from_tail_prefix s : ∀ j,
  j < String.length old →
  String.prefix (drop j old) s = false →
  String.prefix (drop j old) (replace_from 0 old new s) = false.
Proof.
  induction s as [|c s IH]; intros j Hj H; [done|].
  destruct (String.prefix old (String c s)) eqn:E.
  - rewrite replace_from_hit by done.
    by apply diverges_no_prefix, tails_diverge_at.
  - rewrite replace_from_miss by done.
    destruct (drop_step j old Hj) as [y Hy]. rewrite Hy in H |- *.
    rewrite prefix_cons in H |- *.
    destruct (Ascii.eqb y c); [|done].
    destruct (decide (S j < String.length old)) as [Hlt|Hge].
    + by apply IH.
    + replace (S j) with (String.length old) in H by lia.
      by rewrite drop_all, prefix_nil in H.
Qed.

Lemma replace_from_not_prefix s :
  String.prefix old (replace_from 0 old new s) = false.
Proof.
  destruct s as [|c s].
  - destruct old; [simpl in old_nonempty; lia | done].
  - destruct (String.prefix old (String c s)) eqn:E.
    + rewrite replace_from_hit by done.
      apply diverges_no_prefix.
      by apply (tails_diverge_at old new 0).
    + by apply (replace_from_tail_prefix _ 0).
Qed.

Lemma contains_append_clear p r :
  clear_of old p = true → contains old (p +:+ r) = contains old r.
Proof.
  induction p as [|c p IH]; [done|].
  cbn [clear_of]. intros [Hd Hc]%andb_prop.
  rewrite append_cons. cbn [contains]. rewrite IH by done.
  rewrite <- append_cons. by rewrite diverges_no_prefix.
Qed.

Lemma replace_from_contains s : ∀ k,
  contains old (replace_from k old new s) = false.
Proof.
  induction s as [|c s IH]; intros k.
  - destruct old; [simpl in old_nonempty; lia | done].
  - destruct k as [|k]; [|apply IH].
    destruct (String.prefix old (String c s)) eqn:E.
    + cbn [replace_from]. rewrite E.
      by rewrite contains_append_clear.
    + pose proof (replace_from_not_prefix (String c s)) as Hp.
      rewrite replace_from_miss in Hp |- * by done.
      cbn [contains]. by rewrite Hp, IH.
Qed.
End no_new_occurrence.
End string_lemmas.

(** ** Dictionaries and the renaming loop *)

Section dict_lemmas.
Context {V : Type}.
Implicit Types (d : list (string * V)) (k : string) (v : V).

Lemma get_set_eq d k v : PyDict.get (PyDict.set d k v) k = Some v.
Proof.
  induction d as [|[k' v'] d IH]; cbn.
  - by rewrite String.eqb_refl.
  - destruct (String.eqb k' k) eqn:E; cbn; by rewrite E.
Qed.

Lemma get_set_ne d k k' v :
  k ≠ k' → PyDict.get (PyDict.set d k v) k' = PyDict.get d k'.
Proof.
  intros Hne. induction d as [|[k0 v0] d IH]; cbn.
  - by apply String.eqb_neq in Hne as ->.
  - destruct (String.eqb k0 k) eqn:E; cbn; [|by rewrite IH].
    apply String.eqb_eq in E as ->.
    by apply String.eqb_neq in Hne as ->.
Qed.

Lemma keys_set d k v k' :
  k' ∈ PyDict.keys (PyDict.set d k v) ↔ k' = k ∨ k' ∈ PyDict.keys d.
Proof.
  unfold PyDict.keys. induction d as [|[k0 v0] d IH]; cbn.
  - rewrite list_elem_of_singleton, elem_of_nil. tauto.
  - destruct (String.eqb k0 k) eqn:E; cbn; rewrite !elem_of_cons.
    + apply String.eqb_eq in E as ->. tauto.
    + rewrite IH. tauto.
Qed.

Lemma values_set d k v v' :
  v' ∈ PyDict.values (PyDict.set d k v) → v' = v ∨ v' ∈ PyDict.values d.
Proof.
  unfold PyDict.values. induction d as [|[k0 v0] d IH]; cbn.
  - rewrite list_elem_of_singleton. tauto.
  - destruct (String.eqb k0 k) eqn:E; cbn; rewrite !elem_of_cons; tauto.
Qed.

Lemma rename_into_cons acc k v d :
  rename_into acc ((k, v) :: d)
  = rename_into (PyDict.set acc (convert_key k) v) d.
Proof. reflexivity. Qed.

Lemma rename_into_app acc d1 d2 :
  rename_into acc (d1 ++ d2) = rename_into (rename_into acc d1) d2.
Proof. apply foldl_app. Qed.

Lemma rename_into_get_other acc d name :
  (∀ k v, (k, v) ∈ d → convert_key k ≠ name) →
  PyDict.get (rename_into acc d) name = PyDict.get acc name.
Proof.
  revert acc. induction d as [|[k v] d IH]; intros acc H; [done|].
  rewrite rename_into_cons, IH.
  - apply get_set_ne, (H k v). by left.
  - intros k' v' Hin. apply (H k' v'). by right.
Qed.

Lemma rename_into_keys acc d name :
  name ∈ PyDict.keys (rename_into acc d)
  ↔ name ∈ PyDict.keys acc ∨ name ∈ convert_key <$> PyDict.keys d.
Proof.
  revert acc. induction d as [|[k v] d IH]; intros acc.
  - cbn. rewrite elem_of_nil. tauto.
  - rewrite rename_into_cons, IH, keys_set. cbn.
    rewrite elem_of_cons. tauto.
Qed.

Lemma rename_into_values acc d v :
  v ∈ PyDict.values (rename_into acc d) →
  v ∈ PyDict.values acc ∨ v ∈ PyDict.values d.
Proof.
  revert acc. induction d as [|[k0 v0] d IH]; intros acc; [tauto|].
  rewrite rename_into_cons. cbn. rewrite elem_of_cons.
  intros [H|H]%IH; [|tauto]. apply values_set in H. tauto.
Qed.
End dict_lemmas.

Lemma convert_state_dict_rename {V} (d : list (string * V)) :
  convert_state_dict d = rename_into [] d.
Proof. reflexivity. Qed.

(** C8, as stated, fails when two names are renamed to the same name: the
    entry met first loses its value to the one met later. *)
Lemma colliding_names_lose_a_value :
  ¬ names_only [("transformer.w", 1%Z); ("model.w", 2%Z)].
Proof.
  intros [H _]. specialize (H "transformer.w" 1%Z).
  vm_compute in H. by specialize (H ltac:(left)).
Qed.

(** C8, amended: an entry whose new name is the new name of no later entry
    is found under its new name with its own value; the new names are
    exactly the renamed old names; every value of the output is a value of
    the input. *)
Theorem convert_state_dict_values {V} (d1 d2 : list (string * V)) k v :
  (∀ k' v', (k', v') ∈ d2 → convert_key k' ≠ convert_key k) →
  PyDict.get (convert_state_dict (d1 ++ (k, v) :: d2)) (convert_key k) = Some v
  ∧ (∀ name, name ∈ PyDict.keys (convert_state_dict (d1 ++ (k, v) :: d2))
       ↔ name ∈ convert_key <$> PyDict.keys (d1 ++ (k, v) :: d2))
  ∧ (∀ v',
       v' ∈ PyDict.values (convert_state_dict (d1 ++ (k, v) :: d2)) →
       v' ∈ PyDict.values (d1 ++ (k, v) :: d2)).
Proof.
  intros Hlast. rewrite convert_state_dict_rename. split_and!.
  - rewrite rename_into_app, rename_into_cons.
    rewrite rename_into_get_other by done. apply get_set_eq.
  - intros name. rewrite rename_into_keys. cbn. rewrite elem_of_nil. tauto.
  - intros v' [H|H]%rename_into_values; [by apply elem_of_nil in H | done].
Qed.

Lemma convert_state_dict_values_witness :
  let d := [("transformer.a", 1%Z); ("transformer.b", 2%Z); ("model.c", 3%Z)] in
  PyDict.get (convert_state_dict d) (convert_key "transformer.b") = Some 2%Z
  ∧ (∀ name, name ∈ PyDict.keys (convert_state_dict d)
       ↔ name ∈ convert_key <$> PyDict.keys d)
  ∧ (∀ v', v' ∈ PyDict.values (convert_state_dict d) →
       v' ∈ PyDict.values d).
Proof.
  apply (convert_state_dict_values
           [("transformer.a", 1%Z)] [("model.c", 3%Z)] "transformer.b" 2%Z).
  intros k' v' Hin. apply list_elem_of_singleton in Hin.
  injection Hin as -> _. vm_compute. discriminate.
Defined.

(** ** The rule for the output layer *)

Section output_layer.
Import PyStr.

(** A rule keeps a leading [p] when nothing it rewrites can begin inside
    [p] ... *)
Lemma replace_keeps_clear p old new t :
  old ≠ "" → clear_of old p = true →
  ∃ t', replace old new (p +:+ t) = p +:+ t'.
Proof.
  intros Hne Hc. destruct old as [|a old]; [done|].
  cbn [replace]. rewrite replace_from_clear by done. eauto.
Qed.

(** ... or when the only occurrence that can begin inside [p] begins at its
    last character, which the replacement gives back. *)
Lemma replace_keeps_last p c old new t :
  clear_of (String c old) p = true →
  ∃ t', replace (String c old) (String c new) (p +:+ String c t)
        = p +:+ String c t'.
Proof.
  intros Hc. cbn [replace]. rewrite replace_from_clear by done.
  destruct (replace_from_same_head c old new t) as [t' ->]. eauto.
Qed.

Lemma apply_rules_keeps_target rules :
  Forall keeps_target rules →
  ∀ t, ∃ t', apply_rules rules ("model.output_layer." +:+ t)
             = "model.output_layer." +:+ t'.
Proof.
  induction 1 as [|[old new] rules Hr _ IH]; intros t; [by exists t|].
  destruct (Hr t) as [t1 Ht1]. cbn [fst snd] in Ht1.
  unfold apply_rules. cbn [foldl]. rewrite Ht1. apply IH.
Qed.
Lemma clear_rule old new :
  old ≠ "" → clear_of old "model.output_layer." = true →
  keeps_target (old, new).
Proof. intros ?? t. by apply replace_keeps_clear. Qed.

Lemma dot_rule old new :
  clear_of (String "." old) "model.output_layer" = true →
  keeps_target (String "." old, String "." new).
Proof.
  intros H t. apply (replace_keeps_last "model.output_layer" "." old new t H).
Qed.

Lemma later_rules_keep_target :
  Forall keeps_target (tail STATE_DICT_MAPPING).
Proof.
  unfold STATE_DICT_MAPPING, tail.
  repeat (constructor;
    [ first
        [ apply clear_rule; [discriminate | vm_compute; reflexivity]
        | apply dot_rule; vm_compute; reflexivity ] | ]).
  constructor.
Qed.
Lemma apply_rules_cons old new rules key :
  apply_rules ((old, new) :: rules) key
  = apply_rules rules (replace old new key).
Proof. reflexivity. Qed.

Lemma replace_nonempty a old new s :
  replace (String a old) new s = replace_from 0 (String a old) new s.
Proof. reflexivity. Qed.

Lemma first_rule_on_output_layer s :
  replace "transformer." "model." ("transformer.output_layer." +:+ s)
  = "model.output_layer." +:+ replace_from 0 "transformer." "model." s.
Proof.
  rewrite replace_nonempty.
  assert ("transformer.output_layer." +:+ s
          = "transformer." +:+ ("output_layer." +:+ s)) as -> by reflexivity.
  rewrite replace_from_app_old.
  rewrite (replace_from_clear _ _ "output_layer.") by (vm_compute; reflexivity).
  reflexivity.
Qed.

Lemma convert_key_output_layer s :
  ∃ t, convert_key ("transformer.output_layer." +:+ s)
       = "model.output_layer." +:+ t.
Proof.
  unfold convert_key, STATE_DICT_MAPPING.
  rewrite apply_rules_cons, first_rule_on_output_layer.
  apply (apply_rules_keeps_target _ later_rules_keep_target).
Qed.

Lemma first_rule_kills_second key :
  contains "transformer.output_layer."
           (replace "transformer." "model." key) = false.
Proof.
  apply (contains_longer "transformer."); [vm_compute; reflexivity|].
  rewrite replace_nonempty.
  apply replace_from_contains;
    [cbn; lia | vm_compute; reflexivity | vm_compute; reflexivity].
Qed.
End output_layer.

(** C10: a name that begins with [transformer.output_layer.] is renamed to
    a name that begins with [model.output_layer.], not with [lm_head.], and
    that name is a key of the collection [convert_state_dict] returns; the
    key the second rule receives never contains its pattern, so the rule
    changes no key. *)
Theorem output_layer_stays_under_model :
  (∀ s,
     PyStr.startswith (convert_key ("transformer.output_layer." +:+ s))
                      "model.output_layer." = true
     ∧ PyStr.startswith (convert_key ("transformer.output_layer." +:+ s))
                        "lm_head." = false)
  ∧ (∀ (V : Type) (d1 d2 : list (string * V)) s v,
       convert_key ("transformer.output_layer." +:+ s)
       ∈ PyDict.keys
           (convert_state_dict
              (d1 ++ ("transformer.output_layer." +:+ s, v) :: d2)))
  ∧ (∀ key,
       PyStr.contains "transformer.output_layer."
                      (PyStr.replace "transformer." "model." key) = false
       ∧ PyStr.replace "transformer.output_layer." "lm_head."
                       (PyStr.replace "transformer." "model." key)
         = PyStr.replace "transformer." "model." key).
Proof.
  split_and!.
  - intros s. destruct (convert_key_output_layer s) as [t ->].
    unfold PyStr.startswith.
    split; [apply (prefix_app "model.output_layer.") | vm_compute; reflexivity].
  - intros V d1 d2 s v.
    rewrite convert_state_dict_rename, rename_into_keys. right.
    apply list_elem_of_fmap_2. unfold PyDict.keys.
    rewrite fmap_app, elem_of_app. right. by left.
  - intros key. split; [apply first_rule_kills_second|].
    rewrite (replace_nonempty "t" "ransformer.output_layer.").
    apply contains_false_replace, first_rule_kills_second.
Qed.

(** ** Integers within the range of a double *)

Section double_range.
Local Open Scope Z_scope.

Lemma digits2_pos_upper p : Zpos p < 2 ^ Zpos (digits2_pos p).
Proof.
  induction p as [p IH|p IH|]; cbn [digits2_pos];
    rewrite ?Pos2Z.inj_succ, ?Z.pow_succ_r by lia; lia.
Qed.

Lemma digits2_pos_lower p : 2 ^ (Zpos (digits2_pos p) - 1) ≤ Zpos p.
Proof.
  induction p as [p IH|p IH|]; cbn [digits2_pos]; [| |done];
    rewrite Pos2Z.inj_succ;
    replace (Z.succ (Zpos (digits2_pos p)) - 1)
      with (Z.succ (Zpos (digits2_pos p) - 1)) by lia;
    rewrite Z.pow_succ_r by lia; lia.
Qed.

Lemma digits2_pos_le p k : 0 ≤ k → Zpos p < 2 ^ k → Zpos (digits2_pos p) ≤ k.
Proof.
  intros Hk Hp. pose proof (digits2_pos_lower p) as Hl.
  destruct (Z_le_gt_dec (Zpos (digits2_pos p)) k) as [|Hgt]; [done|].
  assert (2 ^ k ≤ 2 ^ (Zpos (digits2_pos p) - 1))
    by (apply Z.pow_le_mono_r; lia).
  lia.
Qed.

Lemma digits2_pos_shifted p k :
  Zpos (digits2_pos (Pos.iter xO p k)) = Zpos (digits2_pos p) + Zpos k.
Proof.
  induction k as [|k IH] using Pos.peano_ind.
  - cbn [Pos.iter digits2_pos]. lia.
  - rewrite Pos.iter_succ. cbn [digits2_pos]. lia.
Qed.

Lemma shr_1_halves mrs : 0 ≤ shr_m mrs → shr_m (shr_1 mrs) = shr_m mrs / 2.
Proof.
  destruct mrs as [m r s]. cbn [shr_m shr_1]. intros Hm.
  destruct m as [|[p|p|]|p]; cbn [shr_m]; try done; try lia.
  - rewrite (Pos2Z.inj_xI p). apply (Z.div_unique _ 2 _ 1); lia.
  - rewrite (Pos2Z.inj_xO p). apply (Z.div_unique _ 2 _ 0); lia.
Qed.

Lemma iter_shr_1_divides k : ∀ mrs,
  0 ≤ shr_m mrs →
  shr_m (SpecFloat.iter_pos shr_1 k mrs) = shr_m mrs / 2 ^ Zpos k.
Proof.
  induction k as [k IH|k IH|]; intros mrs Hm; cbn [SpecFloat.iter_pos].
  - assert (0 ≤ shr_m (shr_1 mrs))
      by (rewrite shr_1_halves by done; apply Z.div_pos; lia).
    assert (0 ≤ shr_m (SpecFloat.iter_pos shr_1 k (shr_1 mrs)))
      by (rewrite IH by done; apply Z.div_pos; lia).
    rewrite !IH, shr_1_halves by done.
    rewrite !Z.div_div by lia. f_equal.
    rewrite (Pos2Z.inj_xI k).
    replace (2 * Z.pos k + 1) with (1 + Z.pos k + Z.pos k) by lia.
    rewrite !Z.pow_add_r by lia. change (2 ^ 1) with 2. ring.
  - assert (0 ≤ shr_m (SpecFloat.iter_pos shr_1 k mrs))
      by (rewrite IH by done; apply Z.div_pos; lia).
    rewrite !IH by done. rewrite !Z.div_div by lia. f_equal.
    rewrite (Pos2Z.inj_xO k).
    replace (2 * Z.pos k) with (Z.pos k + Z.pos k) by lia.
    rewrite !Z.pow_add_r by lia. ring.
  - by rewrite shr_1_halves.
Qed.

Lemma round_nearest_even_bounds m l :
  m ≤ round_nearest_even m l ≤ m + 1.
Proof.
  destruct l as [|[]]; cbn [round_nearest_even]; try lia.
  destruct (Z.even m); lia.
Qed.

Lemma Zdigits2_le m k : 0 ≤ k → 0 ≤ m < 2 ^ k → Zdigits2 m ≤ k.
Proof.
  intros Hk [H0 Hm]. destruct m as [|p|p]; cbn [Zdigits2]; [done| |lia].
  by apply digits2_pos_le.
Qed.

(** The first shift of [binary_round_aux] leaves a mantissa of at most 53
    bits. *)
Lemma shr_fexp_mantissa mx ex :
  let '(mrs, e) := shr_fexp 53 1024 (Zpos mx) ex loc_Exact in
  0 ≤ shr_m mrs < 2 ^ 53
  ∧ (e = ex ∨ e = fexp 53 1024 (Zpos (digits2_pos mx) + ex)).
Proof.
  unfold shr_fexp, shr. cbn [Zdigits2 shr_record_of_loc].
  pose proof (digits2_pos_upper mx) as Hup.
  set (d := Zpos (digits2_pos mx)) in *.
  assert (d - 53 ≤ fexp 53 1024 (d + ex) - ex) as Hfexp
    by (unfold fexp; lia).
  destruct (fexp 53 1024 (d + ex) - ex) as [|k|k] eqn:Hn.
  - cbn [shr_m]. split; [|by left]. split; [lia|].
    assert (2 ^ d ≤ 2 ^ 53) by (apply Z.pow_le_mono_r; lia). lia.
  - split; [|right; lia].
    rewrite iter_shr_1_divides by (cbn; lia). cbn [shr_m].
    split; [apply Z.div_pos; lia|].
    apply Z.div_lt_upper_bound; [lia|].
    rewrite <- Z.pow_add_r by lia.
    assert (2 ^ d ≤ 2 ^ (Zpos k + 53)) by (apply Z.pow_le_mono_r; lia).
    lia.
  - cbn [shr_m]. split; [|by left]. split; [lia|].
    assert (2 ^ d ≤ 2 ^ 53) by (apply Z.pow_le_mono_r; lia). lia.
Qed.

(** The second shift, after rounding, raises the exponent by at most one. *)
Lemma shr_fexp_exponent m e :
  0 ≤ m ≤ 2 ^ 53 → e ≤ 970 →
  (shr_fexp 53 1024 m e loc_Exact).2 ≤ 971.
Proof.
  intros Hm He. unfold shr_fexp, shr.
  assert (Zdigits2 m ≤ 54) as Hd by (apply Zdigits2_le; lia).
  assert (fexp 53 1024 (Zdigits2 m + e) ≤ 971) by (unfold fexp, emin; lia).
  destruct (fexp 53 1024 (Zdigits2 m + e) - e) eqn:Hn; cbn [snd]; lia.
Qed.

Lemma binary_round_aux_finite sx mx ex s :
  ex ≤ 970 → fexp 53 1024 (Zpos (digits2_pos mx) + ex) ≤ 970 →
  binary_round_aux 53 1024 sx (Zpos mx) ex loc_Exact ≠ S754_infinity s.
Proof.
  intros Hex Hfexp. unfold binary_round_aux.
  pose proof (shr_fexp_mantissa mx ex) as H1.
  destruct (shr_fexp 53 1024 (Zpos mx) ex loc_Exact) as [mrs e'].
  destruct H1 as [Hm He'].
  pose proof (round_nearest_even_bounds (shr_m mrs) (loc_of_shr_record mrs))
    as Hr.
  pose proof (shr_fexp_exponent
                (round_nearest_even (shr_m mrs) (loc_of_shr_record mrs)) e')
    as H2.
  destruct (shr_fexp 53 1024 _ e' loc_Exact) as [mrs'' e''].
  cbn [snd] in H2.
  assert (e'' ≤ 971) as He'' by (apply H2; lia).
  destruct (shr_m mrs''); [done| |done].
  replace (e'' <=? 1024 - 53) with true; [done|].
  symmetry. apply Z.leb_le. lia.
Qed.

Lemma binary_round_finite sx mx s :
  Zpos mx < 2 ^ 1023 → binary_round 53 1024 sx mx 0 ≠ S754_infinity s.
Proof.
  intros Hmx. unfold binary_round, shl_align.
  assert (Zpos (digits2_pos mx) ≤ 1023) as Hd
    by (apply digits2_pos_le; lia).
  set (d := Zpos (digits2_pos mx)) in *.
  assert (fexp 53 1024 (d + 0) ≤ 970) as Hf by (unfold fexp, emin; lia).
  destruct (fexp 53 1024 (d + 0) - 0) as [|k|k] eqn:Hn.
  - apply binary_round_aux_finite; [lia | done].
  - apply binary_round_aux_finite; [lia | done].
  - apply binary_round_aux_finite; [exact Hf|].
    rewrite digits2_pos_shifted. fold d. revert Hn.
    unfold fexp, emin. lia.
Qed.

(** An integer below [2 ^ 1023] in magnitude converts to a double. *)
Lemma float_of_int_in_range z :
  Z.abs z < 2 ^ 1023 → ∃ f, float_of_int z = Ok f.
Proof.
  intros Hz. unfold float_of_int.
  destruct (binary_normalize 53 1024 z 0 false) as [| s | |] eqn:E; eauto.
  exfalso. destruct z as [|p|p]; cbn [binary_normalize] in E; [done|..].
  - by apply (binary_round_finite false p s).
  - by apply (binary_round_finite true p s).
Qed.
End double_range.

(** ** The configuration translator *)


Lemma float_mul_scaled x theta :
  float_mul 10000 x = Ok theta → scaled x theta.
Proof.
  destruct x as [|b|z|f|s|l|d]; cbn [float_mul scaled]; try done;
    try (by intros [= <-]).
  unfold float_of_int.
  destruct (binary_normalize 53 1024 z 0 false); cbn [result_bind];
    try done; by intros [= <-].
Qed.

Section monad_lemmas.
Context {S : Type}.

Lemma mret_bind {A B} (a : A) (f : A → M S B) s : (mret a ≫= f) s = f a s.
Proof. reflexivity. Qed.

Lemma lift_bind {A B} (r : result A) (f : A → M S B) s :
  (lift r ≫= f) s
  = match r with Ok a => f a s | Raise e => (Raise e, s) end.
Proof. by destruct r. Qed.
End monad_lemmas.

Lemma pop_bind {B} k (f : json → M (gmap string json) B) d :
  (pop k ≫= f) d
  = match d !! k with
    | Some v => f v (delete k d)
    | None => (Raise (KeyError k), d)
    end.
Proof. unfold mbind, M_bind, pop. by destruct (d !! k). Qed.

(** A [pop] after the keys [ks] have been popped. *)
Lemma pop_bind_after {B} ks k (f : json → M (gmap string json) B) cfg :
  bool_decide (k ∉ ks) = true →
  (pop k ≫= f) (foldr delete cfg ks)
  = match cfg !! k with
    | Some v => f v (foldr delete cfg (k :: ks))
    | None => (Raise (KeyError k), foldr delete cfg ks)
    end.
Proof.
  intros Hk%bool_decide_eq_true. rewrite pop_bind.
  by rewrite lookup_foldr_delete_not_elem_of.
Qed.

Lemma convert_config_start cfg :
  convert_config cfg = convert_config (foldr delete cfg []).
Proof. reflexivity. Qed.

Ltac invert_step H :=
  first
    [ rewrite pop_bind_after in H by (vm_compute; reflexivity);
      match type of H with
      | context [match ?m !! ?k with _ => _ end] =>
          destruct (m !! k) eqn:?; [|discriminate H]
      end
    | rewrite lift_bind in H;
      match type of H with
      | context [float_mul ?c ?x] =>
          destruct (float_mul c x) eqn:?; [|discriminate H]
      end ];
  cbv beta iota in H.

(** A successful run read every field it returns from the source. *)
Lemma convert_config_Ok cfg target unused :
  convert_config cfg = (Ok target, unused) → translates cfg target.
Proof.
  rewrite convert_config_start. unfold convert_config. intros H.
  do 6 invert_step H.
  match type of H with
  | context [truthy ?flag] => destruct (truthy flag) eqn:Hflag
  end; cbn [negb] in H; cbv beta iota in H;
    [invert_step H | rewrite mret_bind in H]; do 14 invert_step H;
    apply (f_equal fst) in H; cbv beta iota delta [fst mret M_ret] in H;
    injection H as <-; unfold translates;
    cbv beta iota delta
      [vocab_size hidden_size intermediate_size num_hidden_layers
       num_attention_heads num_key_value_heads resid_pdrop attention_dropout
       max_position_embeddings initializer_range rms_norm_eps rope_theta
       use_rms_norm apply_residual_connection_post_layernorm post_layer_norm
       use_cache head_dim attention_bias linear_bias];
    (split_and!; try eassumption;
     [ eexists; split_and!;
         [ eassumption
         | rewrite Hflag; eassumption
         | intros ->; first [eassumption | cbn in Hflag; discriminate Hflag]
         | intros ->; first [eassumption | cbn in Hflag; discriminate Hflag] ]
     | eexists; split; [eassumption | by apply float_mul_scaled] ]).
Qed.


Ltac in_list :=
  repeat first [apply list_elem_of_here | apply list_elem_of_further].




Local Open Scope float_scope.

Lemma translates_fields_read cfg target f :
  translates cfg target → f ∈ fields_read cfg → is_Some (cfg !! f).
Proof.
  unfold translates, fields_read.
  intros
    (?&?&?&?&?&(flag&Hflag&Hkv&_&_)&?&?&?&?&?&(ratio&?&?)&?&?&?&?&?&?&?).
  rewrite Hflag. cbn [from_option]. unfold required_fields.
  intros Hf.
  assert (f = "multi_query_group_num" ∧ truthy flag = true
          ∨ f ∈ unconditional_fields) as [[-> Ht]|Hin].
  { destruct (truthy flag); [|by right].
    apply elem_of_cons in Hf as [->|Hf]; [by left | by right]. }
  - rewrite Ht in Hkv. eauto.
  - unfold unconditional_fields in Hin.
    repeat (apply elem_of_cons in Hin as [->|Hin]); eauto.
    by apply elem_of_nil in Hin.
Qed.

Lemma convert_config_missing cfg f :
  f ∈ fields_read cfg → cfg !! f = None →
  ∃ e partial, convert_config cfg = (Raise e, partial).
Proof.
  intros Hf Hnone.
  destruct (convert_config cfg) as [[target|e] partial] eqn:E; [|eauto].
  apply convert_config_Ok in E.
  destruct (translates_fields_read cfg target f E Hf) as [? ?]. congruence.
Qed.

(** C5: in the record a run returns, the key-value head count is the group
    count of the source when the multi-query flag is [true], or any other
    truthy value, and its head count when the flag is [false], or any other
    falsy value; the rotary base is the double 10000 times the rope ratio,
    which is a float, a boolean counted as 1.0 or 0.0, or an integer
    converted to the nearest double.  A source with flag [true], group
    count 2, 32 heads and ratio 1.5 gives 2 key-value heads and base
    15000.0; with flag [false] and the integer ratio 2 it gives 32
    key-value heads and base 20000.0. *)
Theorem kv_heads_and_rope_theta cfg target unused :
  convert_config cfg = (Ok target, unused) →
  (∃ flag heads ratio,
      cfg !! "multi_query_attention" = Some flag
      ∧ cfg !! "num_attention_heads" = Some heads
      ∧ cfg !! "rope_ratio" = Some ratio
      ∧ (flag = JBool true →
         cfg !! "multi_query_group_num" = Some (num_key_value_heads target))
      ∧ (flag = JBool false → num_key_value_heads target = heads)
      ∧ (truthy flag = true →
         cfg !! "multi_query_group_num" = Some (num_key_value_heads target))
      ∧ (truthy flag = false → num_key_value_heads target = heads)
      ∧ (∀ x, ratio = JFloat x → rope_theta target = 10000 * x)
      ∧ (∀ b, ratio = JBool b →
           rope_theta target = 10000 * (if b then 1 else 0))
      ∧ (∀ z, ratio = JInt z →
           rope_theta target
           = 10000 * SF2Prim (binary_normalize 53 1024 z 0 false))
      ∧ ((∃ x, ratio = JFloat x) ∨ (∃ b, ratio = JBool b)
         ∨ (∃ z, ratio = JInt z)))
  ∧ (cfg !! "multi_query_attention" = Some (JBool true) →
     cfg !! "multi_query_group_num" = Some (JInt 2) →
     cfg !! "num_attention_heads" = Some (JInt 32) →
     cfg !! "rope_ratio" = Some (JFloat 1.5) →
     num_key_value_heads target = JInt 2 ∧ rope_theta target = 15000)
  ∧ (cfg !! "multi_query_attention" = Some (JBool false) →
     cfg !! "num_attention_heads" = Some (JInt 32) →
     cfg !! "rope_ratio" = Some (JInt 2) →
     num_key_value_heads target = JInt 32 ∧ rope_theta target = 20000).
Proof.
  intros H%convert_config_Ok. unfold translates in H.
  destruct H as
    (_&_&_&_&Hheads&(flag&Hflag&Hkv&Hon&Hoff)&_&_&_&_&_
     &(ratio&Hratio&Htheta)&_).
  split_and!.
  - exists flag, (num_attention_heads target), ratio.
    split_and!; try done.
    + intros E. specialize (Hoff E). rewrite Hheads in Hoff.
      by injection Hoff.
    + intros Ht. by rewrite Ht in Hkv.
    + intros Ht. rewrite Ht, Hheads in Hkv. by injection Hkv.
    + by intros x ->.
    + by intros b ->.
    + by intros z ->.
    + destruct ratio; cbn [scaled] in Htheta; try done; eauto.
  - intros Hf Hg Hh Hr. rewrite Hf in Hflag. injection Hflag as <-.
    rewrite Hr in Hratio. injection Hratio as <-.
    rewrite Hg in Hon. specialize (Hon eq_refl). injection Hon as <-.
    cbn [scaled] in Htheta. by rewrite Htheta.
  - intros Hf Hh Hr. rewrite Hf in Hflag. injection Hflag as <-.
    rewrite Hr in Hratio. injection Hratio as <-.
    rewrite Hh in Hoff. specialize (Hoff eq_refl). injection Hoff as <-.
    cbn [scaled] in Htheta. rewrite Htheta. split; [done|].
    vm_compute. reflexivity.
Qed.

Lemma kv_heads_and_rope_theta_witness :
  ∃ target unused,
    convert_config sample_config = (Ok target, unused)
    ∧ num_key_value_heads target = JInt 2 ∧ rope_theta target = 15000.
Proof.
  eexists _, _. split; [vm_compute; reflexivity|].
  refine (proj1 (proj2 (kv_heads_and_rope_theta sample_config _ _ _))
            eq_refl eq_refl eq_refl eq_refl).
  vm_compute. reflexivity.
Defined.

Section pipeline_facts.
Context {Tensor Model Core : Type}.
Variable json_load : list byte → result (gmap string json).
Variable safe_load_file : string → M fs (list (string * Tensor)).
Variable from_config : GlmConfig → Model.
Variable load_state_dict : Model → list (string * Tensor) → result Model.
Variable new_converter : string → list string → M fs (GlmConverter Core).
Variable from_pretrained : string → M fs TokenizerMetadata.
Variable save_config : GlmConfig → string → M fs unit.
Variable save_model : Model → string → M fs unit.
Variable save_tokenizer : PreTrainedTokenizerFast Core → string → M fs unit.

(** C6: when [config.json] lacks a field the translation reads,
    [convert_config] raises, the pipeline raises the same exception, and the
    file system it leaves is the one it found: nothing was written. *)
Theorem missing_field_aborts_before_any_write
    input_dir output_dir (w : fs) text cfg f :
  files w !! OsPath.join input_dir "config.json" = Some text →
  json_load text = Ok cfg →
  f ∈ fields_read cfg → cfg !! f = None →
  ∃ e, (convert_config cfg).1 = Raise e
       ∧ convert_glm_model json_load safe_load_file from_config
           load_state_dict new_converter from_pretrained save_config
           save_model save_tokenizer input_dir output_dir w
         = (Raise e, w).
Proof.
  intros Hfile Hload Hf Hnone.
  destruct (convert_config_missing cfg f Hf Hnone) as (e & partial & E).
  exists e. rewrite E. split; [done|].
  unfold convert_glm_model, mbind, M_bind, read_bytes, lift.
  by rewrite Hfile, Hload, E.
Qed.
End pipeline_facts.

Lemma missing_field_aborts_before_any_write_witness :
  ∃ e, (convert_config ∅).1 = Raise e
       ∧ convert_glm_model (Tensor := unit) (Model := unit) (Core := unit)
           (λ _, Ok ∅)
           (λ path, read_bytes path ≫= λ _, mret [])
           (λ _, ())
           (λ model _, Ok model)
           (λ path _, lift (Raise (FileNotFoundError path)))
           (λ name, lift (Raise (ExternalError name)))
           (λ _ dir, open_wb (OsPath.join dir "config.json"))
           (λ _ dir, open_wb (OsPath.join dir "model.safetensors"))
           (λ _ dir, open_wb (OsPath.join dir "tokenizer.json"))
           "ckpt" "out" empty_config_checkout
         = (Raise e, empty_config_checkout).
Proof.
  apply (missing_field_aborts_before_any_write
           _ _ _ _ _ _ _ _ _ "ckpt" "out" empty_config_checkout
           [x7b; x7d] ∅ "hidden_size");
    [reflexivity | reflexivity | vm_compute; in_list | reflexivity].
Defined.

(** ** The shard merger *)

Section merger.

Lemma split_nonempty sep n s : PyStr.split sep n s ≠ [].
Proof.
  destruct s as [|c s]; [done|]. cbn [PyStr.split].
  destruct (Ascii.eqb c sep); [by destruct n|].
  by destruct (PyStr.split sep n s).
Qed.

(** A leading part without the separator stays in the first field. *)
Lemma split_after_clear sep n p s :
  PyStr.contains (String sep "") p = false →
  PyStr.split sep n (p +:+ s)
  = match PyStr.split sep n s with
    | field :: fields => (p +:+ field) :: fields
    | [] => []
    end.
Proof.
  induction p as [|c p IH]; intros Hp.
  - rewrite append_nil. by destruct (PyStr.split sep n s).
  - cbn [PyStr.contains] in Hp. apply orb_false_elim in Hp as [Hc Hp].
    rewrite append_cons. cbn [PyStr.split].
    rewrite prefix_cons, prefix_nil in Hc.
    destruct (Ascii.eqb sep c) eqn:E; [done|].
    rewrite Ascii.eqb_sym, E, (IH Hp).
    pose proof (split_nonempty sep n s).
    by destruct (PyStr.split sep n s).
Qed.

Lemma shard_key_after_clear p name :
  PyStr.contains "-" p = false → shard_key (p +:+ name) = shard_key name.
Proof.
  intros Hp. unfold shard_key. rewrite (split_after_clear "-" 2 p name Hp).
  pose proof (split_nonempty "-" 2 name).
  by destruct (PyStr.split "-" 2 name).
Qed.

Lemma contains_append_char old p c :
  PyStr.contains (String old "") p = false → Ascii.eqb old c = false →
  PyStr.contains (String old "") (p +:+ String c "") = false.
Proof.
  intros Hp Hc. induction p as [|x p IH].
  - rewrite append_nil. cbn [PyStr.contains].
    by rewrite prefix_cons, Hc.
  - cbn [PyStr.contains] in Hp. apply orb_false_elim in Hp as [Hx Hp].
    rewrite append_cons. cbn [PyStr.contains].
    rewrite prefix_cons, prefix_nil in Hx |- *.
    destruct (Ascii.eqb old x); [done|]. by rewrite IH.
Qed.

(** In a directory whose path has no hyphen the sort key of a joined path is
    the sort key of the file name. *)
Lemma shard_key_join dir name :
  PyStr.contains "-" dir = false → PyStr.startswith name "/" = false →
  shard_key (OsPath.join dir name) = shard_key name.
Proof.
  intros Hdir Hname. unfold OsPath.join. rewrite Hname.
  destruct (String.eqb dir "" || PyStr.endswith dir "/").
  - by apply shard_key_after_clear.
  - replace (dir +:+ "/" +:+ name) with ((dir +:+ "/") +:+ name).
    + apply shard_key_after_clear. by apply contains_append_char.
    + clear. induction dir as [|c dir IH]; [done|].
      by rewrite !append_cons, IH.
Qed.

Lemma result_mapM_Ok {A B} (f : A → result B) l ys :
  result_mapM f l = Ok ys → Forall2 (λ x y, f x = Ok y) l ys.
Proof.
  revert ys. induction l as [|x l IH]; intros ys; cbn.
  - intros [= <-]. constructor.
  - destruct (f x) as [y|] eqn:Ex; [|done]. cbn.
    destruct (result_mapM f l) as [ys'|]; [|done]. cbn.
    intros [= <-]. constructor; [done | by apply IH].
Qed.

Lemma result_mapM_total {A B} (f : A → result B) l :
  Forall (λ x, ∃ y, f x = Ok y) l → ∃ ys, result_mapM f l = Ok ys.
Proof.
  induction 1 as [|x l [y Hy] _ [ys Hys]]; [by eexists|].
  exists (y :: ys). cbn. by rewrite Hy, Hys.
Qed.

Lemma result_mapM_raises {A B} (f : A → result B) l x e :
  x ∈ l → f x = Raise e → ∃ e', result_mapM f l = Raise e'.
Proof.
  intros Hx Hf. induction l as [|x' l IH]; [by apply elem_of_nil in Hx|].
  cbn. destruct (f x') eqn:E; [|by eexists]. cbn.
  apply elem_of_cons in Hx as [->|Hx]; [congruence|].
  destruct (IH Hx) as [e' ->]. by eexists.
Qed.

Section insertion_sort.
Context {A : Type}.
Implicit Types (kx : Z * A) (l : list (Z * A)).

Lemma insert_by_key_perm kx l : insert_by_key kx l ≡ₚ kx :: l.
Proof.
  induction l as [|ky l IH]; [done|]. cbn.
  destruct (Z.leb kx.1 ky.1); [done|].
  rewrite IH. apply Permutation_swap.
Qed.

Lemma insert_by_key_sorted kx l :
  StronglySorted by_key l → StronglySorted by_key (insert_by_key kx l).
Proof.
  induction 1 as [|ky l Hl IH Hky]; cbn.
  - repeat constructor.
  - destruct (Z.leb kx.1 ky.1) eqn:E.
    + apply Z.leb_le in E. constructor; [by constructor|].
      constructor; [done|].
      eapply Forall_impl; [exact Hky|]. unfold by_key. intros; lia.
    + apply Z.leb_gt in E. constructor; [done|].
      rewrite insert_by_key_perm. constructor; [|done].
      unfold by_key. lia.
Qed.

Lemma sort_by_key_perm l : foldr insert_by_key [] l ≡ₚ l.
Proof.
  induction l as [|kx l IH]; [done|]. cbn.
  by rewrite insert_by_key_perm, IH.
Qed.

Lemma sort_by_key_sorted l : StronglySorted by_key (foldr insert_by_key [] l).
Proof.
  induction l as [|kx l IH]; [constructor|]. by apply insert_by_key_sorted.
Qed.

(** What [sorted] returns: the same elements, by ascending key. *)
Lemma sorted_Ok (key : A → result Z) (l ordered : list A) :
  sorted key l = Ok ordered →
  ordered ≡ₚ l
  ∧ ∃ ks, Forall2 (λ x k, key x = Ok k) ordered ks
          ∧ StronglySorted Z.le ks.
Proof.
  unfold sorted.
  destruct (result_mapM _ l) as [keyed|] eqn:E; [|done]. cbn.
  intros [= <-]. apply result_mapM_Ok in E.
  assert (keyed.*2 = l ∧ Forall (λ kx, key kx.2 = Ok kx.1) keyed)
    as [Hl Hkeys].
  { clear -E. induction E as [|x kx l keyed Hx _ [IH1 IH2]]; [done|].
    destruct (key x) as [k|] eqn:Ek; [|done]. cbn in Hx.
    injection Hx as <-. cbn. rewrite IH1. split; [done|].
    constructor; [done|done]. }
  pose proof (sort_by_key_perm keyed) as Hperm.
  pose proof (sort_by_key_sorted keyed) as Hsorted.
  rewrite <- Hperm in Hkeys.
  set (s := foldr insert_by_key [] keyed) in *. split.
  - by rewrite Hperm, Hl.
  - exists s.*1. split.
    + clear -Hkeys. induction Hkeys as [|[k x] s Hx _ IH]; [constructor|].
      cbn. by constructor.
    + clear -Hsorted.
      induction Hsorted as [|[k x] s _ IH Hk]; [constructor|].
      cbn. constructor; [done|].
      clear -Hk. induction Hk as [|[k' x'] s Hk' _ IH]; [constructor|].
      cbn. by constructor.
Qed.

Lemma sorted_total (key : A → result Z) (l : list A) :
  Forall (λ x, ∃ k, key x = Ok k) l →
  ∃ ordered, sorted key l = Ok ordered.
Proof.
  intros H. unfold sorted.
  destruct (result_mapM_total (λ x, result_bind (key x) (λ k, Ok (k, x))) l)
    as [keyed ->]; [|by eexists].
  eapply Forall_impl; [exact H|]. intros x [k ->]. by eexists.
Qed.

Lemma sorted_raises (key : A → result Z) (l : list A) x e :
  x ∈ l → key x = Raise e → ∃ e', sorted key l = Raise e'.
Proof.
  intros Hx Hk. unfold sorted.
  destruct (result_mapM_raises
              (λ x, result_bind (key x) (λ k, Ok (k, x))) l x e Hx)
    as [e' ->]; [by rewrite Hk | by eexists].
Qed.
End insertion_sort.

Lemma contents_cons w path paths :
  contents w (path :: paths)
  = default [] (files w !! path) ++ contents w paths.
Proof. reflexivity. Qed.

Lemma contents_ext w w' paths :
  (∀ path, path ∈ paths → files w' !! path = files w !! path) →
  contents w' paths = contents w paths.
Proof.
  induction paths as [|p paths IH]; intros H; [done|].
  rewrite !contents_cons, H, IH; [done| |by left].
  intros; apply H. by right.
Qed.

(** The copying loop of [merge_safetensors], from a state in which the
    output holds [acc]. *)
Lemma copy_loop paths : ∀ w output acc,
  files w !! output = Some acc →
  output ∉ paths →
  (∀ path, path ∈ paths → is_Some (files w !! path)) →
  for_each paths (λ filepath,
    data ← read_bytes filepath; write_bytes output data) w
  = (Ok (), {| listing := listing w;
               files := <[output := acc ++ contents w paths]> (files w) |}).
Proof.
  induction paths as [|p paths IH]; intros w output acc Hout Hnot Hall.
  - cbn. rewrite app_nil_r, insert_id by done. by destruct w.
  - apply not_elem_of_cons in Hnot as [Hne Hnot].
    destruct (Hall p) as [data Hdata]; [by left|].
    cbn [for_each]. unfold mbind at 1, M_bind at 1.
    unfold mbind at 1, M_bind at 1, read_bytes at 1.
    rewrite Hdata. unfold write_bytes at 1. rewrite Hout. cbn [default].
    rewrite (IH _ output (acc ++ data)); cbn [files listing].
    + rewrite insert_insert_eq, contents_cons, Hdata. cbn [default].
      rewrite (contents_ext w); [by rewrite app_assoc|].
      intros path Hpath. cbn. rewrite lookup_insert_ne; [done|].
      intros ->. done.
    + by rewrite lookup_insert_eq.
    + done.
    + intros path Hpath. rewrite lookup_insert_ne; [apply Hall; by right|].
      intros ->. done.
Qed.

Lemma merge_safetensors_unfold dir w names :
  listing w !! dir = Some names →
  merge_safetensors dir w
  = match sorted shard_key (shard_paths dir names) with
    | Ok ordered =>
        for_each ordered (λ filepath,
          data ← read_bytes filepath;
          write_bytes (OsPath.join dir "consolidated.safetensors") data)
          {| listing := listing w;
             files := <[OsPath.join dir "consolidated.safetensors" := []]>
                        (files w) |}
    | Raise e => (Raise e, w)
    end.
Proof.
  intros Hdir. unfold merge_safetensors, mbind, M_bind, listdir, lift.
  rewrite Hdir. fold (shard_paths dir names).
  by destruct (sorted shard_key (shard_paths dir names)).
Qed.


(** A path whose sort key cannot be computed stops the merge before the
    output is opened: the file system is left as it was. *)
Lemma merge_raises_on_bad_key dir w names path e :
  listing w !! dir = Some names →
  path ∈ shard_paths dir names → shard_key path = Raise e →
  ∃ e', merge_safetensors dir w = (Raise e', w).
Proof.
  intros Hdir Hpath Hkey. rewrite (merge_safetensors_unfold dir w names Hdir).
  destruct (sorted_raises shard_key (shard_paths dir names) path e Hpath Hkey)
    as [e' ->].
  by eexists.
Qed.

Lemma elem_of_shard_paths dir names path :
  path ∈ shard_paths dir names
  ↔ ∃ name, path = OsPath.join dir name ∧ name ∈ names
            ∧ PyStr.endswith name ".safetensors" = true.
Proof.
  unfold shard_paths. rewrite list_elem_of_fmap.
  split; intros (name & -> & H); exists name; (split; [done|]).
  - by apply list_elem_of_filter in H as [? ?].
  - apply list_elem_of_filter. by destruct H.
Qed.

Section plain_directory.
Variables (dir : string) (w : fs) (names : list string).
Hypothesis dir_plain : PyStr.contains "-" dir = false.
Hypothesis dir_listed : listing w !! dir = Some names.
Hypothesis names_plain :
  Forall (λ name, PyStr.startswith name "/" = false) names.

Local Abbreviation output := (OsPath.join dir "consolidated.safetensors").

Lemma shard_key_of_path path :
  path ∈ shard_paths dir names →
  ∃ name, name ∈ names ∧ path = OsPath.join dir name
          ∧ shard_key path = shard_key name.
Proof.
  intros (name & -> & Hname & _)%elem_of_shard_paths.
  exists name. split_and!; try done. apply shard_key_join; [done|].
  by eapply (proj1 (Forall_forall _ _) names_plain).
Qed.

Lemma output_has_no_key : shard_key output = Raise IndexError.
Proof. by rewrite shard_key_join. Qed.

(** A shard name whose ordinal is absent or not a number stops the merge
    before the output is opened. *)
Lemma merge_raises_on_bad_name name e :
  name ∈ names → PyStr.endswith name ".safetensors" = true →
  shard_key name = Raise e →
  ∃ e', merge_safetensors dir w = (Raise e', w).
Proof.
  intros Hname Hsuffix Hkey.
  rewrite (merge_safetensors_unfold dir w names dir_listed).
  destruct (sorted_raises shard_key (shard_paths dir names)
              (OsPath.join dir name) e) as [e' ->]; [| |by eexists].
  - apply elem_of_shard_paths. by exists name.
  - rewrite shard_key_join; [done..|].
    by eapply (proj1 (Forall_forall _ _) names_plain).
Qed.

(** When every shard name has an ordinal and every shard can be read, the
    output holds the shards' bytes in ascending order of the ordinals of
    their names. *)
Lemma merge_in_plain_directory :
  Forall (λ path, (∃ k, shard_key path = Ok k) ∧ is_Some (files w !! path))
         (shard_paths dir names) →
  ∃ ordered ks,
    ordered ≡ₚ shard_paths dir names
    ∧ Forall2 (λ path k, ∃ name, name ∈ names
                 ∧ path = OsPath.join dir name ∧ shard_key name = Ok k)
              ordered ks
    ∧ StronglySorted Z.le ks
    ∧ merge_safetensors dir w
      = (Ok (), {| listing := listing w;
                   files := <[output := contents w ordered]> (files w) |}).
Proof.
  intros Hshards.
  destruct (sorted_total shard_key (shard_paths dir names)) as [ordered Hs].
  { eapply Forall_impl; [exact Hshards|]. by intros path [? _]. }
  destruct (sorted_Ok _ _ _ Hs) as (Hperm & ks & Hkeys & Hsorted).
  exists ordered, ks. split_and!; try done.
  - assert (Forall (λ path, path ∈ shard_paths dir names) ordered) as Hin.
    { apply Forall_forall. intros path Hpath. by rewrite <- Hperm. }
    clear Hsorted Hs Hperm. revert Hin.
    induction Hkeys as [|path k ordered' ks' Hk _ IH]; [constructor|].
    intros [Hpath Hin]%Forall_cons.
    constructor; [|by apply IH].
    destruct (shard_key_of_path path Hpath) as (name & ? & ? & Heq).
    exists name. split_and!; try done. by rewrite <- Heq.
  - assert (output ∉ ordered) as Hout.
    { intros Hin. rewrite Hperm in Hin.
      apply (proj1 (Forall_forall _ _) Hshards) in Hin as [[k Hk] _].
      by rewrite output_has_no_key in Hk. }
    rewrite (merge_safetensors_unfold dir w names dir_listed), Hs.
    rewrite (copy_loop ordered _ output []); cbn [files listing].
    + rewrite insert_insert_eq, app_nil_l.
      rewrite (contents_ext w); [done|].
      intros path Hpath. cbn. rewrite lookup_insert_ne; [done|].
      by intros <-.
    + by rewrite lookup_insert_eq.
    + done.
    + intros path Hpath. rewrite lookup_insert_ne; [|by intros <-].
      rewrite Hperm in Hpath.
      by apply (proj1 (Forall_forall _ _) Hshards) in Hpath as [_ ?].
Qed.
End plain_directory.

End merger.

(** C3: in a directory named as on the Hub the sort key is taken from the
    directory name: both shard paths have key 4, although the names have
    ordinals 1 and 2, and the output holds the shards in the order of the
    listing, shard 2 before shard 1.  The same listing under a path without
    hyphen is merged in the order of the ordinals. *)
Theorem merge_in_hub_checkout_keeps_listing_order :
  shard_key shard_1 = Ok 1%Z ∧ shard_key shard_2 = Ok 2%Z
  ∧ shard_key (OsPath.join "glm-4-9b" shard_1) = Ok 4%Z
  ∧ shard_key (OsPath.join "glm-4-9b" shard_2) = Ok 4%Z
  ∧ (merge_safetensors "glm-4-9b" hub_checkout).1 = Ok ()
  ∧ files (merge_safetensors "glm-4-9b" hub_checkout).2
      !! "glm-4-9b/consolidated.safetensors"
    = Some [x02; x02; x01; x01]
  ∧ files (merge_safetensors "ckpt" plain_checkout).2
      !! "ckpt/consolidated.safetensors"
    = Some [x01; x01; x02; x02].
Proof. repeat split; vm_compute; reflexivity. Qed.

(** C7: in a directory named as on the Hub a file with the shard suffix
    and no ordinal in its name does not stop the merge, its bytes are
    written to the output; and in a directory whose name has a hyphen and no
    number, a shard with a well-formed name makes the merge raise. *)
Theorem merge_accepts_stray_file_in_hub_checkout :
  PyStr.split "-" 2 "notes.safetensors" !! 1%nat = None
  ∧ shard_key "notes.safetensors" = Raise IndexError
  ∧ shard_key (OsPath.join "glm-4-9b" "notes.safetensors") = Ok 4%Z
  ∧ (merge_safetensors "glm-4-9b" stray_checkout).1 = Ok ()
  ∧ files (merge_safetensors "glm-4-9b" stray_checkout).2
      !! "glm-4-9b/consolidated.safetensors"
    = Some [x07]
  ∧ shard_key shard_1 = Ok 1%Z
  ∧ (merge_safetensors "my-model" hyphen_checkout).1 = Raise ValueError.
Proof. repeat split; vm_compute; reflexivity. Qed.

(** ** The tokenizer *)

Section tokenizer.
Local Open Scope Z_scope.

Lemma typed_ids (t : Z) (a : list Z) : ((λ id, (id, t)) <$> a).*1 = a.
Proof. induction a as [|x a IH]; [done|]. cbn. by rewrite IH. Qed.

Lemma fill_single_template a b :
  fill_template glm_special_tokens a b
    [SpecialToken "[gMASK]" 0; SpecialToken "<sop>" 0; SequenceA 0]
  = Some ((151331, 0) :: (151333, 0) :: ((λ id, (id, 0)) <$> a)).
Proof.
  unfold fill_template. cbn.
  by rewrite app_nil_r.
Qed.

Lemma fill_pair_template a b :
  fill_template glm_special_tokens a b
    [SpecialToken "[gMASK]" 0; SpecialToken "<sop>" 0; SequenceA 0;
     SequenceB 1]
  = Some ((151331, 0) :: (151333, 0)
          :: ((λ id, (id, 0)) <$> a) ++ ((λ id, (id, 1)) <$> b)).
Proof.
  unfold fill_template. cbn. by rewrite app_nil_r.
Qed.

(** C9: the post-processor [converted] installs is the sequence of byte-level
    post-processing without trimming and the template; the template wraps
    one input as [[gMASK] <sop> $A] and a pair as [[gMASK] <sop> $A $B], the
    two special tokens have identifiers 151331 and 151333, and the tokens of
    the first and second input carry type identifiers 0 and 1. *)
Theorem converted_post_processor {Core} (self : GlmConverter Core) :
  post_processor (converted self)
  = Some (ProcSequence
            [ ProcByteLevel false;
              TemplateProcessing "[gMASK]:0 <sop>:0 $A:0"
                                 "[gMASK]:0 <sop>:0 $A:0 $B:1"
                                 [("[gMASK]", 151331); ("<sop>", 151333)] ])
  ∧ parse_template "[gMASK]:0 <sop>:0 $A:0"
    = Some [SpecialToken "[gMASK]" 0; SpecialToken "<sop>" 0; SequenceA 0]
  ∧ parse_template "[gMASK]:0 <sop>:0 $A:0 $B:1"
    = Some [SpecialToken "[gMASK]" 0; SpecialToken "<sop>" 0; SequenceA 0;
            SequenceB 1]
  ∧ (∀ a, post_process (converted self) a None
          = Some ((151331, 0) :: (151333, 0) :: ((λ id, (id, 0)) <$> a)))
  ∧ (∀ a b, post_process (converted self) a (Some b)
            = Some ((151331, 0) :: (151333, 0)
                    :: ((λ id, (id, 0)) <$> a) ++ ((λ id, (id, 1)) <$> b))).
Proof.
  assert (parse_template "[gMASK]:0 <sop>:0 $A:0"
          = Some [SpecialToken "[gMASK]" 0; SpecialToken "<sop>" 0;
                  SequenceA 0]) as Hsingle by (vm_compute; reflexivity).
  assert (parse_template "[gMASK]:0 <sop>:0 $A:0 $B:1"
          = Some [SpecialToken "[gMASK]" 0; SpecialToken "<sop>" 0;
                  SequenceA 0; SequenceB 1]) as Hpair
    by (vm_compute; reflexivity).
  split_and!; try done.
  - intros a. unfold post_process. cbn [converted post_processor].
    cbn [mbind option_bind process fmap option_fmap option_map].
    rewrite Hsingle.
    cbn [mbind option_bind default]. rewrite typed_ids.
    fold glm_special_tokens. rewrite fill_single_template. reflexivity.
  - intros a b. unfold post_process. cbn [converted post_processor].
    cbn [mbind option_bind process fmap option_fmap option_map].
    rewrite Hpair.
    cbn [mbind option_bind default from_option id]. rewrite !typed_ids.
    fold glm_special_tokens. rewrite fill_pair_template. reflexivity.
Qed.
End tokenizer.

(** * Further properties of the code *)

Local Close Scope float_scope.

(** ** Steps of the state and exception monad *)

Section monad_steps.
Context {S : Type}.

Lemma bind_ok {A B} (m : M S A) (k : A → M S B) s a s' :
  m s = (Ok a, s') → (m ≫= k) s = k a s'.
Proof. intros H. unfold mbind, M_bind. by rewrite H. Qed.

Lemma bind_raise {A B} (m : M S A) (k : A → M S B) s e s' :
  m s = (Raise e, s') → (m ≫= k) s = (Raise e, s').
Proof. intros H. unfold mbind, M_bind. by rewrite H. Qed.

Lemma bind_ok_inv {A B} (m : M S A) (k : A → M S B) s b s' :
  (m ≫= k) s = (Ok b, s') →
  ∃ a s1, m s = (Ok a, s1) ∧ k a s1 = (Ok b, s').
Proof.
  unfold mbind, M_bind. destruct (m s) as [[a|e] s1]; [eauto|done].
Qed.
End monad_steps.

(** ** The shard merger on every directory *)

Section sorting_by_function.
Context {A : Type}.

Lemma result_mapM_fmap {B} (f : A → result B) (g : A → B) (xs : list A) :
  (∀ x, x ∈ xs → f x = Ok (g x)) → result_mapM f xs = Ok (g <$> xs).
Proof.
  induction xs as [|x xs IH]; intros H; [done|]. cbn.
  rewrite (H x) by left. cbn. rewrite IH; [done|].
  intros y Hy. apply H. by right.
Qed.

Lemma result_mapM_first_raise {B} (f : A → result B) (xs : list A) x e :
  x ∈ xs → f x = Raise e →
  ∃ y e', y ∈ xs ∧ f y = Raise e' ∧ result_mapM f xs = Raise e'.
Proof.
  induction xs as [|z xs IH]; intros Hx He; [by apply elem_of_nil in Hx|].
  cbn. destruct (f z) as [b|e'] eqn:Ez.
  - apply elem_of_cons in Hx as [->|Hx]; [congruence|].
    destruct (IH Hx He) as (y & e' & Hy & Hfy & Hm).
    exists y, e'. rewrite Hm. split_and!; [by right | done | done].
  - exists z, e'. split_and!; [by left | done | done].
Qed.

Lemma sorted_by_decoration (k : A → Z) (l : list (Z * A)) :
  Forall (λ kx, kx.1 = k kx.2) l →
  StronglySorted by_key l →
  StronglySorted (λ p q, (k p ≤ k q)%Z) l.*2.
Proof.
  intros Hdec Hs. induction Hs as [|kx l Hs IH Hall]; [constructor|].
  apply Forall_cons in Hdec as [Hkx Hdec]. cbn. constructor; [by apply IH|].
  apply Forall_fmap. rewrite Forall_forall in Hall, Hdec |- *.
  intros ky Hky. cbn. rewrite <- Hkx, <- (Hdec ky Hky). by apply Hall.
Qed.

(** What [sorted] returns when [k] gives the key of every element. *)
Lemma sorted_by_function (key : A → result Z) (k : A → Z) (xs : list A) :
  (∀ x, x ∈ xs → key x = Ok (k x)) →
  ∃ order, sorted key xs = Ok order
           ∧ order ≡ₚ xs
           ∧ StronglySorted (λ p q, (k p ≤ k q)%Z) order.
Proof.
  intros Hk. unfold sorted.
  rewrite (result_mapM_fmap _ (λ x, (k x, x))); cycle 1.
  { intros x Hx. by rewrite (Hk x Hx). }
  cbn. eexists. split; [reflexivity|].
  set (dec := (λ x, (k x, x)) <$> xs).
  assert (Hperm : foldr insert_by_key [] dec ≡ₚ dec)
    by apply sort_by_key_perm.
  split.
  - rewrite Hperm. unfold dec. rewrite <- list_fmap_compose.
    by rewrite list_fmap_id.
  - apply (sorted_by_decoration k); [|apply sort_by_key_sorted].
    rewrite Hperm. unfold dec. apply Forall_fmap, Forall_forall.
    by intros x _.
Qed.
End sorting_by_function.

Lemma shard_key_raises path e :
  shard_key path = Raise e → e = IndexError ∨ e = ValueError.
Proof.
  unfold shard_key. destruct (_ !! 1%nat) as [token|]; [|naive_solver].
  destruct (PyStr.int token); naive_solver.
Qed.

Lemma shard_ordinal_key path n : shard_key path = Ok n → shard_ordinal path = n.
Proof. intros H. unfold shard_ordinal. by rewrite H. Qed.

(** The copying loop, from the output just opened. *)
Lemma copy_into_new_output w out order :
  out ∉ order →
  (∀ p, p ∈ order → is_Some (files w !! p)) →
  for_each order (λ filepath,
    data ← read_bytes filepath; write_bytes out data)
    {| listing := listing w; files := <[out := []]> (files w) |}
  = (Ok (), {| listing := listing w;
               files := <[out := contents w order]> (files w) |}).
Proof.
  intros Hout Hread.
  rewrite (copy_loop order _ out []); cbn [files listing].
  - rewrite insert_insert_eq, app_nil_l.
    rewrite (contents_ext w); [done|].
    intros p Hp. cbn. rewrite lookup_insert_ne; [done|]. by intros <-.
  - by rewrite lookup_insert_eq.
  - done.
  - intros p Hp. rewrite lookup_insert_ne; [by apply Hread | by intros <-].
Qed.

(** The merge of shards that all have a sort key and can all be read. *)
Lemma merge_in_key_order dir w names :
  listing w !! dir = Some names →
  (∀ p, p ∈ shard_paths dir names → ∃ n, shard_key p = Ok n) →
  (∀ p, p ∈ shard_paths dir names → is_Some (files w !! p)) →
  OsPath.join dir "consolidated.safetensors" ∉ shard_paths dir names →
  ∃ order,
    order ≡ₚ shard_paths dir names
    ∧ StronglySorted (λ p q, (shard_ordinal p ≤ shard_ordinal q)%Z) order
    ∧ merge_safetensors dir w
      = (Ok (),
         {| listing := listing w;
            files := <[OsPath.join dir "consolidated.safetensors"
                       := contents w order]> (files w) |}).
Proof.
  intros Hl Hkey Hread Hout.
  destruct (sorted_by_function shard_key shard_ordinal (shard_paths dir names))
    as (order & Hsorted & Hperm & Hord).
  { intros p Hp. destruct (Hkey p Hp) as [n Hn].
    by rewrite (shard_ordinal_key p n). }
  exists order. split_and!; [done..|].
  rewrite (merge_safetensors_unfold dir w names Hl), Hsorted.
  apply copy_into_new_output.
  - by rewrite Hperm.
  - intros p Hp. apply Hread. by rewrite <- Hperm.
Qed.



(** X2: when the sort keys of the shard paths are pairwise different, and
    no path is longer than the 4300 characters [int] takes on every
    interpreter, the merged bytes do not depend on the order in which the
    directory is enumerated. *)
Theorem merge_safetensors_listing_order dir w1 w2 names1 names2 :
  files w1 = files w2 →
  listing w1 !! dir = Some names1 →
  listing w2 !! dir = Some names2 →
  names1 ≡ₚ names2 →
  (∀ p, p ∈ shard_paths dir names1 → ∃ n, shard_key p = Ok n) →
  (∀ p, p ∈ shard_paths dir names1 → (String.length p ≤ 4300)%nat) →
  (∀ p q, p ∈ shard_paths dir names1 → q ∈ shard_paths dir names1 →
          shard_ordinal p = shard_ordinal q → p = q) →
  (∀ p, p ∈ shard_paths dir names1 → is_Some (files w1 !! p)) →
  OsPath.join dir "consolidated.safetensors" ∉ shard_paths dir names1 →
  (merge_safetensors dir w1).1 = Ok ()
  ∧ (merge_safetensors dir w2).1 = Ok ()
  ∧ files (merge_safetensors dir w1).2 = files (merge_safetensors dir w2).2.
Proof.
  intros Hfiles Hl1 Hl2 Hnames Hkey _ Hinj Hread Hout.
  assert (Hpaths : shard_paths dir names1 ≡ₚ shard_paths dir names2).
  { unfold shard_paths. by rewrite Hnames. }
  destruct (merge_in_key_order dir w1 names1)
    as (o1 & Hp1 & Hs1 & ->); [done..|].
  destruct (merge_in_key_order dir w2 names2)
    as (o2 & Hp2 & Hs2 & ->).
  { done. }
  { intros p Hp. apply Hkey. by rewrite Hpaths. }
  { intros p Hp. rewrite <- Hfiles. apply Hread. by rewrite Hpaths. }
  { by rewrite <- Hpaths. }
  assert (o1 = o2) as ->.
  { eapply StronglySorted_unique_strong; [|exact Hs1|exact Hs2|].
    - intros p q Hp Hq H1 H2. cbv beta in H1, H2.
      apply Hinj; [by rewrite <- Hp1| |lia].
      by rewrite Hpaths, <- Hp2.
    - by rewrite Hp1, Hp2. }
  cbn. unfold contents. by rewrite Hfiles.
Qed.

Lemma merge_safetensors_listing_order_witness :
  (merge_safetensors "ckpt" plain_checkout).1 = Ok ()
  ∧ (merge_safetensors "ckpt" plain_checkout_in_order).1 = Ok ()
  ∧ files (merge_safetensors "ckpt" plain_checkout).2
    = files (merge_safetensors "ckpt" plain_checkout_in_order).2.
Proof.
  apply (merge_safetensors_listing_order
           "ckpt" plain_checkout plain_checkout_in_order
           [shard_2; shard_1; "config.json"]
           ["config.json"; shard_1; shard_2]).
  - reflexivity.
  - reflexivity.
  - reflexivity.
  - etrans; [apply Permutation_swap|]. symmetry.
    apply (Permutation_middle [shard_1; shard_2] [] "config.json").
  - intros p Hp. vm_compute in Hp.
    apply elem_of_cons in Hp as [->|Hp];
      [|apply list_elem_of_singleton in Hp as ->];
      eexists; vm_compute; reflexivity.
  - intros p Hp. vm_compute in Hp.
    apply elem_of_cons in Hp as [->|Hp];
      [|apply list_elem_of_singleton in Hp as ->];
      apply Nat.leb_le; vm_compute; reflexivity.
  - intros p q Hp Hq. vm_compute in Hp, Hq.
    apply elem_of_cons in Hp as [->|Hp];
      [|apply list_elem_of_singleton in Hp as ->];
      (apply elem_of_cons in Hq as [->|Hq];
         [|apply list_elem_of_singleton in Hq as ->]);
      vm_compute; first [reflexivity | discriminate].
  - intros p Hp. vm_compute in Hp.
    apply elem_of_cons in Hp as [->|Hp];
      [|apply list_elem_of_singleton in Hp as ->];
      eexists; vm_compute; reflexivity.
  - vm_compute. intros Hp.
    apply elem_of_cons in Hp as [Hp|Hp];
      [|apply list_elem_of_singleton in Hp]; discriminate Hp.
Defined.

(** X3: in a directory whose path holds no hyphen, the sort key of a joined
    path is the sort key of the file name, whatever the name is. *)
Theorem shard_key_of_joined_path dir name :
  PyStr.contains "-" dir = false →
  shard_key (OsPath.join dir name) = shard_key name.
Proof.
  intros Hdir. destruct (PyStr.startswith name "/") eqn:Hname.
  - unfold OsPath.join. by rewrite Hname.
  - by apply shard_key_join.
Qed.

Lemma shard_key_of_joined_path_witness :
  shard_key (OsPath.join "ckpt" shard_2) = shard_key shard_2.
Proof.
  apply (shard_key_of_joined_path "ckpt" shard_2). vm_compute. reflexivity.
Defined.




(** A shard path without a sort key stops the merge before the output is
    opened. *)
Lemma merge_stops_on_bad_path dir w names x e :
  listing w !! dir = Some names →
  x ∈ names →
  PyStr.endswith x ".safetensors" = true →
  shard_key (OsPath.join dir x) = Raise e →
  ∃ e', merge_safetensors dir w = (Raise e', w)
        ∧ (e' = IndexError ∨ e' = ValueError).
Proof.
  intros Hl Hx Hsuffix He.
  rewrite (merge_safetensors_unfold dir w names Hl). unfold sorted.
  edestruct (result_mapM_first_raise
               (λ p, result_bind (shard_key p) (λ k, Ok (k, p)))
               (shard_paths dir names) (OsPath.join dir x) e)
    as (y & e' & Hy & Hfy & ->).
  - apply elem_of_shard_paths. by exists x.
  - by rewrite He.
  - exists e'. split; [done|].
    destruct (shard_key y) as [n|e''] eqn:Ey; [done|].
    cbn in Hfy. injection Hfy as ->. by apply (shard_key_raises y).
Qed.

(** X5: when a listed name ends in [.safetensors] and its joined path has
    no sort key, [merge_safetensors] raises [IndexError] or [ValueError]
    and the file system is left as it was: the output is neither created
    nor emptied. *)
Theorem merge_safetensors_malformed_path dir w names x e :
  listing w !! dir = Some names →
  x ∈ names →
  PyStr.endswith x ".safetensors" = true →
  shard_key (OsPath.join dir x) = Raise e →
  ∃ e', merge_safetensors dir w = (Raise e', w)
        ∧ (e' = IndexError ∨ e' = ValueError).
Proof. apply merge_stops_on_bad_path. Qed.

Lemma merge_safetensors_malformed_path_witness :
  ∃ e', merge_safetensors "ckpt" stray_plain_checkout
        = (Raise e', stray_plain_checkout)
        ∧ (e' = IndexError ∨ e' = ValueError).
Proof.
  apply (merge_safetensors_malformed_path
           "ckpt" stray_plain_checkout ["config.json"; "notes.safetensors"]
           "notes.safetensors" IndexError).
  - reflexivity.
  - in_list.
  - vm_compute. reflexivity.
  - vm_compute. reflexivity.
Defined.

(** X6: in a directory whose path holds no hyphen and which lists a
    [consolidated.safetensors], as after a first run, [merge_safetensors]
    raises and leaves every file as it was: the merged file has the shard
    suffix and no ordinal. *)
Theorem merge_safetensors_second_run dir w names :
  listing w !! dir = Some names →
  "consolidated.safetensors" ∈ names →
  PyStr.contains "-" dir = false →
  ∃ e, merge_safetensors dir w = (Raise e, w)
       ∧ (e = IndexError ∨ e = ValueError).
Proof.
  intros Hl Hin Hdir.
  apply (merge_stops_on_bad_path dir w names
           "consolidated.safetensors" IndexError); [done|done|..].
  - vm_compute. reflexivity.
  - rewrite shard_key_join; [vm_compute; reflexivity | done |].
    vm_compute. reflexivity.
Qed.

Lemma merge_safetensors_second_run_witness :
  ∃ e, merge_safetensors "ckpt" merged_checkout = (Raise e, merged_checkout)
       ∧ (e = IndexError ∨ e = ValueError).
Proof.
  apply (merge_safetensors_second_run
           "ckpt" merged_checkout
           [shard_1; "consolidated.safetensors"; shard_2]).
  - reflexivity.
  - in_list.
  - vm_compute. reflexivity.
Defined.

(** ** How a run of the configuration translator ends *)

Lemma pop_ok key d v : d !! key = Some v → pop key d = (Ok v, delete key d).
Proof. intros H. unfold pop. by rewrite H. Qed.

Lemma pop_missing key d :
  d !! key = None → pop key d = (Raise (KeyError key), d).
Proof. intros H. unfold pop. by rewrite H. Qed.

Lemma pop_order_required b : pop_order b ≡ₚ required_fields b.
Proof.
  unfold pop_order, required_fields, unconditional_fields.
  destruct b; [|done]. symmetry.
  exact (Permutation_middle
           [ "num_attention_heads"; "padded_vocab_size"; "hidden_size";
             "ffn_hidden_size"; "num_hidden_layer"; "multi_query_attention" ]
           _ "multi_query_group_num").
Qed.

Lemma lookup_foldl_delete (ks : list string) (m : gmap string json) k :
  foldl (λ d key, delete key d) m ks !! k
  = if bool_decide (k ∈ ks) then None else m !! k.
Proof.
  revert m. induction ks as [|key ks IH]; intros m; [done|].
  cbn [foldl]. rewrite IH.
  destruct (decide (k = key)) as [->|Hne].
  - rewrite lookup_delete_eq.
    rewrite (bool_decide_eq_true_2 (key ∈ key :: ks)) by left.
    by destruct (bool_decide _).
  - rewrite lookup_delete_ne by done.
    destruct (decide (k ∈ ks)) as [Hin|Hout].
    + rewrite !bool_decide_eq_true_2; [done|by right|done].
    + rewrite !bool_decide_eq_false_2; [done| |done].
      rewrite elem_of_cons. intros [?|?]; done.
Qed.

(** A lookup below the entries already popped. *)
Ltac lookups :=
  repeat first
    [ rewrite lookup_delete_ne by discriminate
    | rewrite lookup_delete_eq ].

Lemma float_mul_refuses x e : float_mul 10000 x = Raise e → refuses x e.
Proof.
  destruct x as [|b|z|f|s|l|d]; cbn [float_mul refuses]; try done;
    try (by intros [= <-]).
  intros H. destruct (Z_lt_ge_dec (Z.abs z) (2 ^ 1023)) as [Hlt|Hge].
  - destruct (float_of_int_in_range z Hlt) as [f Hf]. by rewrite Hf in H.
  - split; [|lia]. unfold float_of_int in H.
    destruct (binary_normalize 53 1024 z 0 false); cbn [result_bind] in H;
      try done; by injection H.
Qed.

(** The fields deleted from the source in the dictionary [d], oldest
    first. *)
Ltac popped_from d acc :=
  lazymatch d with
  | @delete _ _ _ ?k ?d' => popped_from d' constr:(k :: acc)
  | _ => acc
  end.

(** The run has stopped: the fields popped so far are read off the
    dictionary it left. *)
Ltac stopped :=
  lazymatch goal with
  | |- ∃ popped later, _ ∧ ?d = _ ∧ _ =>
      let popped := popped_from d constr:(@nil string) in
      lazymatch goal with
      | |- context [pop_order ?mq] =>
          exists popped, (drop (length popped) (pop_order mq));
          lazymatch mq with
          | true => idtac
          | false => idtac
          | _ => destruct mq
          end;
          (split_and!;
           [ vm_compute; reflexivity
           | reflexivity
           | repeat (constructor; [by eexists|]); constructor
           | ])
      end
  end.

(** One [pop] of the chain: the field is there and the run goes on, or the
    run ends with its [KeyError]. *)
Ltac pop_or_stop cfg k v Hk :=
  destruct (cfg !! k) as [v|] eqn:Hk;
  [ erewrite bind_ok; [| apply pop_ok; lookups; exact Hk]
  | erewrite bind_raise; [| apply pop_missing; lookups; exact Hk];
    stopped; left; exists k;
    (split_and!; [done | done | vm_compute; reflexivity]) ].

(** Every way a run can end: with a record, every field of [pop_order]
    popped; with the [KeyError] of an absent field, the next in the order;
    or with the exception of the multiplication by the rope ratio, just
    popped.  An exception leaves the dictionary without the fields popped
    before it, which were all there. *)
Lemma convert_config_outcome cfg :
  match convert_config cfg with
  | (Ok _, rest) =>
      rest = foldl (λ d key, delete key d) cfg
               (pop_order (from_option truthy false
                             (cfg !! "multi_query_attention")))
  | (Raise e, rest) =>
      ∃ popped later,
        pop_order (from_option truthy false
                     (cfg !! "multi_query_attention"))
        = popped ++ later
        ∧ rest = foldl (λ d key, delete key d) cfg popped
        ∧ Forall (λ k, is_Some (cfg !! k)) popped
        ∧ ((∃ k, e = KeyError k ∧ cfg !! k = None ∧ head later = Some k)
           ∨ (∃ ratio, cfg !! "rope_ratio" = Some ratio
                       ∧ float_mul 10000 ratio = Raise e
                       ∧ last popped = Some "rope_ratio"))
  end.
Proof.
  unfold convert_config.
  pop_or_stop cfg "num_attention_heads" heads Hheads.
  pop_or_stop cfg "padded_vocab_size" vocab Hvocab.
  pop_or_stop cfg "hidden_size" hidden Hhidden.
  pop_or_stop cfg "ffn_hidden_size" ffn Hffn.
  pop_or_stop cfg "num_hidden_layer" layers Hlayers.
  pop_or_stop cfg "multi_query_attention" flag Hflag.
  cbn [from_option].
  destruct (truthy flag) eqn:Etruthy; cbn [negb].
  - pop_or_stop cfg "multi_query_group_num" group Hgroup.
    pop_or_stop cfg "hidden_dropout" drop1 Hdrop1.
    pop_or_stop cfg "attention_dropout" drop2 Hdrop2.
    pop_or_stop cfg "max_position_embeddings" maxpos Hmaxpos.
    pop_or_stop cfg "initializer_range" init Hinit.
    pop_or_stop cfg "layernorm_epsilon" eps Heps.
    pop_or_stop cfg "rope_ratio" ratio Hratio.
    destruct (float_mul 10000 ratio) as [theta|e] eqn:Hmul.
    + erewrite bind_ok; [|reflexivity].
      pop_or_stop cfg "rmsnorm" rms Hrms.
      pop_or_stop cfg "apply_residual_connection_post_layernorm" resid Hresid.
      pop_or_stop cfg "post_layer_norm" post Hpost.
      pop_or_stop cfg "use_cache" cache Hcache.
      pop_or_stop cfg "kv_channels" kvc Hkvc.
      pop_or_stop cfg "add_qkv_bias" qkvb Hqkvb.
      pop_or_stop cfg "add_bias_linear" linb Hlinb.
      reflexivity.
    + erewrite bind_raise; [|reflexivity].
      stopped. right. exists ratio.
      split_and!; [done | done | vm_compute; reflexivity].
  - erewrite bind_ok; [|reflexivity].
    pop_or_stop cfg "hidden_dropout" drop1 Hdrop1.
    pop_or_stop cfg "attention_dropout" drop2 Hdrop2.
    pop_or_stop cfg "max_position_embeddings" maxpos Hmaxpos.
    pop_or_stop cfg "initializer_range" init Hinit.
    pop_or_stop cfg "layernorm_epsilon" eps Heps.
    pop_or_stop cfg "rope_ratio" ratio Hratio.
    destruct (float_mul 10000 ratio) as [theta|e] eqn:Hmul.
    + erewrite bind_ok; [|reflexivity].
      pop_or_stop cfg "rmsnorm" rms Hrms.
      pop_or_stop cfg "apply_residual_connection_post_layernorm" resid Hresid.
      pop_or_stop cfg "post_layer_norm" post Hpost.
      pop_or_stop cfg "use_cache" cache Hcache.
      pop_or_stop cfg "kv_channels" kvc Hkvc.
      pop_or_stop cfg "add_qkv_bias" qkvb Hqkvb.
      pop_or_stop cfg "add_bias_linear" linb Hlinb.
      reflexivity.
    + erewrite bind_raise; [|reflexivity].
      stopped. right. exists ratio.
      split_and!; [done | done | vm_compute; reflexivity].
Qed.

(** X7: after a successful run the dictionary holds the source entries
    the run did not read and no other: these are the unused keys the
    function prints.  With a falsy multi-query flag the group count is one
    of them. *)
Theorem convert_config_unused_keys cfg config unused :
  convert_config cfg = (Ok config, unused) →
  ∀ k, unused !! k
       = if bool_decide (k ∈ fields_read cfg) then None else cfg !! k.
Proof.
  intros H k. pose proof (convert_config_outcome cfg) as Hout.
  rewrite H in Hout. subst unused. unfold fields_read.
  rewrite lookup_foldl_delete.
  by rewrite (bool_decide_ext _ _
                (elem_of_Permutation_proper k _ _ (pop_order_required _))).
Qed.

Lemma convert_config_unused_keys_witness :
  (convert_config sample_config).2 !! "model_type"
  = if bool_decide ("model_type" ∈ fields_read sample_config) then None
    else sample_config !! "model_type".
Proof.
  destruct (convert_config sample_config) as [[config|e] unused] eqn:E.
  - exact (convert_config_unused_keys sample_config config unused E
             "model_type").
  - vm_compute in E. discriminate E.
Defined.

(** X8: when a run raises, the fields popped before the exception are an
    initial part of the pop order; each of them was in the source and is
    gone from the dictionary, whose other entries are as they were.  The
    exception is the [KeyError] of the next field of the order, which the
    source lacks, or, with the rope ratio popped last, the [TypeError] of a
    ratio that is not a number or the [OverflowError] of an integer ratio
    of at least [2 ^ 1023] in magnitude. *)
Theorem convert_config_raises cfg e rest :
  convert_config cfg = (Raise e, rest) →
  ∃ popped later,
    pop_order (from_option truthy false (cfg !! "multi_query_attention"))
    = popped ++ later
    ∧ (∀ k, k ∈ popped → is_Some (cfg !! k))
    ∧ (∀ k, rest !! k
            = if bool_decide (k ∈ popped) then None else cfg !! k)
    ∧ ((∃ k, e = KeyError k ∧ cfg !! k = None ∧ head later = Some k)
       ∨ (∃ ratio, cfg !! "rope_ratio" = Some ratio
                   ∧ refuses ratio e
                   ∧ last popped = Some "rope_ratio")).
Proof.
  intros H. pose proof (convert_config_outcome cfg) as Hout.
  rewrite H in Hout.
  destruct Hout as (popped & later & Horder & -> & Hthere & Hend).
  exists popped, later. split_and!; [done| | |].
  - by apply Forall_forall.
  - intros k. apply lookup_foldl_delete.
  - destruct Hend as [(k & -> & Hk & Hnext)|(r & Hr & Hmul & Hlast)].
    + left. by exists k.
    + right. exists r. split_and!; [done | by apply float_mul_refuses | done].
Qed.

Lemma convert_config_raises_witness :
  ∃ popped later,
    pop_order (from_option truthy false
                 (quoted_ratio_config !! "multi_query_attention"))
    = popped ++ later
    ∧ (∀ k, k ∈ popped → is_Some (quoted_ratio_config !! k))
    ∧ (∀ k, (convert_config quoted_ratio_config).2 !! k
            = if bool_decide (k ∈ popped) then None
              else quoted_ratio_config !! k)
    ∧ ((∃ k, TypeError = KeyError k ∧ quoted_ratio_config !! k = None
             ∧ head later = Some k)
       ∨ (∃ ratio, quoted_ratio_config !! "rope_ratio" = Some ratio
                   ∧ refuses ratio TypeError
                   ∧ last popped = Some "rope_ratio")).
Proof.
  assert (E : convert_config quoted_ratio_config
              = (Raise TypeError, (convert_config quoted_ratio_config).2))
    by (vm_compute; reflexivity).
  exact (convert_config_raises _ _ _ E).
Defined.

(** ** Renaming a whole weight collection *)

Section renaming.
Context {V : Type}.
Implicit Types (d acc : list (string * V)).

Lemma set_fresh acc k (v : V) :
  k ∉ PyDict.keys acc → PyDict.set acc k v = (acc ++ [(k, v)])%list.
Proof.
  unfold PyDict.keys. induction acc as [|[k' v'] acc IH]; [done|].
  cbn. rewrite not_elem_of_cons. intros [Hne Hnin].
  apply not_eq_sym, String.eqb_neq in Hne. rewrite Hne.
  by rewrite IH.
Qed.

Lemma set_length acc k (v : V) :
  (length (PyDict.set acc k v) ≤ S (length acc))%nat.
Proof.
  induction acc as [|[k' v'] acc IH]; cbn; [lia|].
  destruct (String.eqb k' k); cbn; lia.
Qed.

Lemma set_keys acc k (v : V) :
  PyDict.keys (PyDict.set acc k v)
  = if bool_decide (k ∈ PyDict.keys acc) then PyDict.keys acc
    else (PyDict.keys acc ++ [k])%list.
Proof.
  unfold PyDict.keys. induction acc as [|[k' v'] acc IH]; [done|].
  cbn. destruct (String.eqb_spec k' k) as [->|Hne]; cbn.
  - by rewrite bool_decide_eq_true_2 by left.
  - rewrite IH. destruct (decide (k ∈ acc.*1)) as [Hin|Hout].
    + by rewrite !bool_decide_eq_true_2; [|by right|].
    + rewrite !bool_decide_eq_false_2; [done| |done].
      rewrite elem_of_cons. intros [?|?]; [congruence|done].
Qed.

Lemma set_nodup acc k (v : V) :
  NoDup (PyDict.keys acc) → NoDup (PyDict.keys (PyDict.set acc k v)).
Proof.
  intros Hnd. rewrite set_keys. case_bool_decide as Hin; [done|].
  apply NoDup_app. split_and!; [done| |apply NoDup_singleton].
  intros x Hx ->%list_elem_of_singleton. done.
Qed.

Lemma rename_into_nodup acc d :
  NoDup (PyDict.keys acc) → NoDup (PyDict.keys (rename_into acc d)).
Proof.
  revert acc. induction d as [|[k v] d IH]; intros acc Hnd; [done|].
  rewrite rename_into_cons. by apply IH, set_nodup.
Qed.

Lemma rename_into_length acc d :
  (length (rename_into acc d) ≤ length acc + length d)%nat.
Proof.
  revert acc. induction d as [|[k v] d IH]; intros acc; [cbn; lia|].
  rewrite rename_into_cons.
  pose proof (IH (PyDict.set acc (convert_key k) v)).
  pose proof (set_length acc (convert_key k) v). cbn [length]. lia.
Qed.

Lemma rename_into_distinct acc d :
  NoDup (PyDict.keys acc ++ (convert_key <$> PyDict.keys d))%list →
  rename_into acc d = (acc ++ (rename_entry <$> d))%list.
Proof.
  revert acc. induction d as [|[k v] d IH]; intros acc Hnd.
  - cbn. by rewrite app_nil_r.
  - rewrite rename_into_cons. cbn in Hnd.
    apply NoDup_app in Hnd as (Hacc & Hdisj & Hd).
    apply NoDup_cons in Hd as [Hk Hd].
    rewrite set_fresh; cycle 1.
    { intros Hin. apply (Hdisj _ Hin). by left. }
    rewrite IH.
    + by rewrite <- app_assoc.
    + unfold PyDict.keys. rewrite fmap_app. cbn.
      rewrite <- app_assoc. cbn.
      apply NoDup_app. split_and!; [done| |by constructor].
      intros x Hx. rewrite elem_of_cons. intros [->|Hin].
      * apply (Hdisj _ Hx). by left.
      * apply (Hdisj _ Hx). by right.
Qed.
End renaming.

(** A key in which no pattern of the rule list occurs is left as it is. *)
Lemma convert_key_fixed key :
  (∀ old new, (old, new) ∈ STATE_DICT_MAPPING →
     PyStr.contains old key = false) →
  convert_key key = key.
Proof.
  intros H. unfold convert_key.
  assert (∀ rules, rules ⊆ STATE_DICT_MAPPING →
            apply_rules rules key = key) as Hall; [|by apply Hall].
  induction rules as [|[old new] rules IH]; intros Hsub; [done|].
  rewrite apply_rules_cons.
  assert (Hin : (old, new) ∈ STATE_DICT_MAPPING) by (apply Hsub; by left).
  assert (PyStr.replace old new key = key) as ->.
  { destruct old as [|a old].
    - exfalso. clear -Hin. unfold STATE_DICT_MAPPING in Hin.
      repeat (apply elem_of_cons in Hin as [Hin|Hin]; [discriminate Hin|]).
      by apply elem_of_nil in Hin.
    - rewrite replace_nonempty. apply contains_false_replace.
      by apply (H _ new). }
  apply IH. intros r Hr. apply Hsub. by right.
Qed.

(** X9: when the new names of the input entries are pairwise different,
    [convert_state_dict] returns the input entries in their order, each
    under its new name with its own value: nothing is lost and nothing is
    reordered. *)
Theorem convert_state_dict_distinct_names {V} (d : list (string * V)) :
  NoDup (convert_key <$> PyDict.keys d) →
  convert_state_dict d = rename_entry <$> d
  ∧ length (convert_state_dict d) = length d.
Proof.
  intros Hnd. rewrite convert_state_dict_rename.
  rewrite rename_into_distinct by exact Hnd.
  cbn [app]. by rewrite length_fmap.
Qed.

Lemma convert_state_dict_distinct_names_witness :
  convert_state_dict
    [ ("transformer.encoder.layers.0.mlp.dense_h_to_4h.weight", 1%Z);
      ("transformer.encoder.final_layernorm.weight", 2%Z) ]
  = rename_entry
      <$> [ ("transformer.encoder.layers.0.mlp.dense_h_to_4h.weight", 1%Z);
            ("transformer.encoder.final_layernorm.weight", 2%Z) ]
  ∧ length
      (convert_state_dict
         [ ("transformer.encoder.layers.0.mlp.dense_h_to_4h.weight", 1%Z);
           ("transformer.encoder.final_layernorm.weight", 2%Z) ])
    = 2%nat.
Proof.
  apply (convert_state_dict_distinct_names
           [ ("transformer.encoder.layers.0.mlp.dense_h_to_4h.weight", 1%Z);
             ("transformer.encoder.final_layernorm.weight", 2%Z) ]).
  vm_compute. apply NoDup_cons. split.
  - intros Hin. apply list_elem_of_singleton in Hin. discriminate Hin.
  - apply NoDup_singleton.
Defined.

(** X10: whatever names collide, the output of [convert_state_dict] is a
    dictionary, no name occurs in it twice, and it has no more entries than
    the input. *)
Theorem convert_state_dict_is_dict {V} (d : list (string * V)) :
  NoDup (PyDict.keys (convert_state_dict d))
  ∧ (length (convert_state_dict d) ≤ length d)%nat.
Proof.
  rewrite convert_state_dict_rename. split.
  - apply rename_into_nodup. constructor.
  - apply (rename_into_length [] d).
Qed.

(** X11: a collection none of whose names holds a pattern of the rule list
    is returned as it is. *)
Theorem convert_state_dict_without_patterns {V} (d : list (string * V)) :
  NoDup (PyDict.keys d) →
  (∀ key old new, key ∈ PyDict.keys d → (old, new) ∈ STATE_DICT_MAPPING →
     PyStr.contains old key = false) →
  (∀ key, key ∈ PyDict.keys d → convert_key key = key)
  ∧ convert_state_dict d = d.
Proof.
  intros Hnd H.
  assert (Hkeys : ∀ k, k ∈ PyDict.keys d → convert_key k = k).
  { intros k Hk. apply convert_key_fixed. intros. by eapply H. }
  split; [done|].
  assert (Hfmap : convert_key <$> PyDict.keys d = PyDict.keys d).
  { rewrite <- (list_fmap_id (PyDict.keys d)) at 2.
    apply list_fmap_ext. intros i k Hi. apply Hkeys.
    by eapply list_elem_of_lookup_2. }
  rewrite convert_state_dict_rename, rename_into_distinct
    by (cbn; by rewrite Hfmap).
  cbn. rewrite <- (list_fmap_id d) at 2. apply list_fmap_ext.
  intros i [k v] Hi. unfold rename_entry. cbn. f_equal. apply Hkeys.
  unfold PyDict.keys. apply list_elem_of_fmap. exists (k, v).
  split; [done|]. by eapply list_elem_of_lookup_2.
Qed.

Lemma convert_state_dict_without_patterns_witness :
  convert_state_dict [("lm_head.weight", 1%Z)] = [("lm_head.weight", 1%Z)].
Proof.
  refine (proj2 (convert_state_dict_without_patterns
                   [("lm_head.weight", 1%Z)] _ _)).
  - apply NoDup_singleton.
  - intros key old new Hkey Hrule.
    apply list_elem_of_singleton in Hkey as ->.
    unfold STATE_DICT_MAPPING in Hrule.
    repeat (apply elem_of_cons in Hrule as [Hrule|Hrule];
            [injection Hrule as -> ->; vm_compute; reflexivity|]).
    by apply elem_of_nil in Hrule.
Defined.

(** ** The stages of the pipeline *)

Section pipeline_stages.
Context {Tensor Model Core : Type}.
Variable json_load : list byte → result (gmap string json).
Variable safe_load_file : string → M fs (list (string * Tensor)).
Variable from_config : GlmConfig → Model.
Variable load_state_dict : Model → list (string * Tensor) → result Model.
Variable new_converter : string → list string → M fs (GlmConverter Core).
Variable from_pretrained : string → M fs TokenizerMetadata.
Variable save_config : GlmConfig → string → M fs unit.
Variable save_model : Model → string → M fs unit.
Variable save_tokenizer : PreTrainedTokenizerFast Core → string → M fs unit.

(** X12: a shard name without a sort key stops [convert_glm_model] after
    the configuration has been saved and before anything else is written:
    the file system is the one [save_pretrained] of the configuration left,
    with no merged file, no model and no tokenizer. *)
Theorem malformed_shard_aborts_after_config
    input_dir output_dir (w w1 : fs) text cfg config unused names x e :
  files w !! OsPath.join input_dir "config.json" = Some text →
  json_load text = Ok cfg →
  convert_config cfg = (Ok config, unused) →
  save_config config output_dir w = (Ok (), w1) →
  listing w1 !! input_dir = Some names →
  x ∈ names →
  PyStr.endswith x ".safetensors" = true →
  shard_key (OsPath.join input_dir x) = Raise e →
  ∃ e', convert_glm_model json_load safe_load_file from_config
          load_state_dict new_converter from_pretrained save_config
          save_model save_tokenizer input_dir output_dir w
        = (Raise e', w1)
        ∧ (e' = IndexError ∨ e' = ValueError).
Proof.
  intros Htext Hload Hconv Hsave Hl Hx Hsuffix He.
  destruct (merge_stops_on_bad_path input_dir w1 names x e)
    as (e' & Hmerge & Hkind); [done..|].
  exists e'. split; [|done]. unfold convert_glm_model.
  erewrite bind_ok; [|unfold read_bytes; by rewrite Htext].
  erewrite bind_ok; [|unfold lift; by rewrite Hload].
  erewrite bind_ok; [|unfold lift; by rewrite Hconv].
  erewrite bind_ok; [|exact Hsave].
  erewrite bind_raise; [done|exact Hmerge].
Qed.
End pipeline_stages.

Lemma malformed_shard_aborts_after_config_witness :
  ∃ e', convert_glm_model (Tensor := unit) (Model := unit) (Core := unit)
          (λ _, Ok sample_config)
          (λ path, read_bytes path ≫= λ _, mret [])
          (λ _, ())
          (λ model _, Ok model)
          (λ path _, lift (Raise (FileNotFoundError path)))
          (λ name, lift (Raise (ExternalError name)))
          (λ _ dir, open_wb (OsPath.join dir "config.json"))
          (λ _ dir, open_wb (OsPath.join dir "model.safetensors"))
          (λ _ dir, open_wb (OsPath.join dir "tokenizer.json"))
          "ckpt" "out" stray_plain_checkout
        = (Raise e',
           {| listing := listing stray_plain_checkout;
              files := <["out/config.json" := []]>
                         (files stray_plain_checkout) |})
        ∧ (e' = IndexError ∨ e' = ValueError).
Proof.
  eapply (malformed_shard_aborts_after_config
            _ _ _ _ _ _ _ _ _ "ckpt" "out" stray_plain_checkout _
            [x7b; x7d] sample_config _ _
            ["config.json"; "notes.safetensors"] "notes.safetensors"
            IndexError).
  - reflexivity.
  - reflexivity.
  - vm_compute. reflexivity.
  - reflexivity.
  - reflexivity.
  - in_list.
  - vm_compute. reflexivity.
  - vm_compute. reflexivity.
Defined.

(** ** Keys of the layers *)

Section layer_keys.
Import PyStr.

Lemma append_assoc p q r : (p +:+ q) +:+ r = p +:+ (q +:+ r).
Proof.
  induction p as [|c p IH]; [done|]. by rewrite !append_cons, IH.
Qed.

Lemma prefix_other_head a old c s :
  isdigit a = false → isdigit c = true →
  String.prefix (String a old) (String c s) = false.
Proof.
  intros Ha Hc. rewrite prefix_cons.
  destruct (Ascii.eqb a c) eqn:E; [|done].
  apply Ascii.eqb_eq in E as ->. congruence.
Qed.

(** No pattern that begins with something else than a digit occurs in, or
    begins in, a string of digits. *)
Lemma replace_from_digits a old new n t :
  isdigit a = false → all_digits n = true →
  replace_from 0 (String a old) new (n +:+ t)
  = n +:+ replace_from 0 (String a old) new t.
Proof.
  intros Ha. induction n as [|c n IH]; [done|].
  cbn [all_digits]. intros [Hc Hn]%andb_prop.
  rewrite append_cons, replace_from_miss by by apply prefix_other_head.
  by rewrite IH.
Qed.

(** A rule that cannot begin inside [p] passes over [p] and the index. *)
Lemma replace_passes_index a old new p n t :
  isdigit a = false → clear_of (String a old) p = true →
  all_digits n = true →
  replace (String a old) new (p +:+ n +:+ t)
  = p +:+ n +:+ replace (String a old) new t.
Proof.
  intros Ha Hp Hn. rewrite !replace_nonempty.
  rewrite replace_from_clear by done. by rewrite replace_from_digits.
Qed.

(** A rule that begins with a dot could begin at the dot before the index
    but is stopped by the first digit. *)
Lemma replace_passes_dot_index b old new p c n t :
  isdigit b = false → clear_of (String "." (String b old)) p = true →
  all_digits (String c n) = true →
  replace (String "." (String b old)) new
          ((p +:+ ".") +:+ String c n +:+ t)
  = (p +:+ ".") +:+ String c n
    +:+ replace (String "." (String b old)) new t.
Proof.
  intros Hb Hp Hn. rewrite !replace_nonempty, !append_assoc.
  rewrite replace_from_clear by done.
  rewrite (append_cons "." ""), append_nil.
  rewrite replace_from_miss.
  - by rewrite replace_from_digits.
  - rewrite append_cons, prefix_cons. cbn [Ascii.eqb Bool.eqb].
    cbn [all_digits] in Hn. apply andb_prop in Hn as [Hc _].
    by apply prefix_other_head.
Qed.

Lemma first_rule_on_layer n t :
  all_digits n = true →
  replace "transformer." "model." ("transformer.encoder.layers." +:+ n +:+ t)
  = "model.encoder.layers." +:+ n +:+ replace "transformer." "model." t.
Proof.
  intros Hn. rewrite !replace_nonempty.
  assert ("transformer.encoder.layers." +:+ n +:+ t
          = "transformer." +:+ ("encoder.layers." +:+ n +:+ t)) as ->
    by reflexivity.
  rewrite replace_from_app_old.
  rewrite (replace_from_clear _ _ "encoder.layers.")
    by (vm_compute; reflexivity).
  by rewrite replace_from_digits.
Qed.

Lemma layers_rule_on_layer n t :
  all_digits n = true →
  replace ".encoder.layers." ".layers." ("model.encoder.layers." +:+ n +:+ t)
  = "model.layers." +:+ n +:+ replace ".encoder.layers." ".layers." t.
Proof.
  intros Hn. rewrite !replace_nonempty.
  assert ("model.encoder.layers." +:+ n +:+ t
          = "model" +:+ (".encoder.layers." +:+ n +:+ t)) as ->
    by reflexivity.
  rewrite (replace_from_clear _ _ "model") by (vm_compute; reflexivity).
  rewrite replace_from_app_old.
  by rewrite replace_from_digits.
Qed.

(** X14: a key that begins with [transformer.encoder.layers.] and a layer
    index written in digits is renamed to [model.layers.], the same index,
    and what [convert_key] makes of the rest of the key on its own. *)
Theorem convert_key_of_layer n t :
  n ≠ "" → all_digits n = true →
  convert_key ("transformer.encoder.layers." +:+ n +:+ t)
  = "model.layers." +:+ n +:+ convert_key t.
Proof.
  intros Hne Hn. destruct n as [|c n]; [done|].
  unfold convert_key, STATE_DICT_MAPPING. rewrite !apply_rules_cons.
  rewrite first_rule_on_layer by done.
  rewrite (replace_passes_index "t" _ _ "model.encoder.layers.")
    by (done || (vm_compute; reflexivity)).
  assert ("model.encoder.layers." = "model.encoder.layers" +:+ ".") as ->
    by reflexivity.
  rewrite (replace_passes_dot_index "e" _ _ "model.encoder.layers")
    by (done || (vm_compute; reflexivity)).
  assert ("model.encoder.layers" +:+ "." = "model.encoder.layers.") as ->
    by reflexivity.
  rewrite layers_rule_on_layer by done.
  rewrite !(replace_passes_index _ _ _ "model.layers.")
    by (done || (vm_compute; reflexivity)).
  reflexivity.
Qed.

Lemma convert_key_of_layer_witness :
  convert_key ("transformer.encoder.layers." +:+ "17"
               +:+ ".mlp.dense_h_to_4h.weight")
  = "model.layers.17.mlp.gate_up_proj.weight".
Proof.
  rewrite (convert_key_of_layer "17" ".mlp.dense_h_to_4h.weight");
    [|discriminate|reflexivity].
  vm_compute. reflexivity.
Defined.
End layer_keys.
